(** * SafeSpeakAI backend: toxicity scoring and rule-based rephrasing

    A shallow embedding of [backend/toxicity_analyzer.py] and
    [backend/text_rephraser.py], with the theorems that settle what the
    specification says about them.

    Modelling choices.
    - A Python [str] is a [string].  The embedding follows Python on the
      7-bit ASCII alphabet (code points 0..127): case mapping, [isspace],
      [\w], [\b] and [re.IGNORECASE] are the ASCII ones, and one character
      is one code point.  Python's Unicode tables are not modelled, so a
      theorem about all texts whose statement depends on these tables is
      stated for the texts of ASCII characters, [Py.isascii]; it says
      nothing about a text with a character above 127.
    - A Python [float] is a primitive binary64 [float]; [*], [/], [<] are
      the IEEE-754 operations CPython uses, so the numbers below are the
      numbers the interpreter computes (0.7 * 1.3 is 0.9099999999999999).
    - [list(set(xs))] is a list without duplicates whose order depends on
      string hashing; it is modelled by the set of its elements, a
      [gset string].
    - A result dictionary is a record; a key that only some return
      statements provide is an [option] field ([None]: key absent). *)

From Stdlib Require Import PrimFloat Uint63 ZArith Ascii String.
From stdpp Require Import gmap strings.

#[local] Set Warnings "-inexact-float".

(** ** Python built-ins on ASCII text *)

Module Py.

Definition code (c : ascii) : nat := nat_of_ascii c.

Definition between (lo hi : nat) (c : ascii) : bool :=
  (lo <=? code c) && (code c <=? hi).

(** [str.isspace] of one character: TAB, LF, VT, FF, CR, the four
    separators FS, GS, RS, US and the space. *)
Definition isspace (c : ascii) : bool := between 9 13 c || between 28 32 c.

Definition isupper_c (c : ascii) : bool := between 65 90 c.
Definition islower_c (c : ascii) : bool := between 97 122 c.
Definition isdigit_c (c : ascii) : bool := between 48 57 c.

Definition lower_c (c : ascii) : ascii :=
  if isupper_c c then ascii_of_nat (code c + 32) else c.
Definition upper_c (c : ascii) : ascii :=
  if islower_c c then ascii_of_nat (code c - 32) else c.

(** [\w] of the [re] module. *)
Definition isword (c : ascii) : bool :=
  isupper_c c || islower_c c || isdigit_c c || Ascii.eqb c "_".

Fixpoint any (f : ascii -> bool) (s : string) : bool :=
  match s with
  | EmptyString => false
  | String c s' => f c || any f s'
  end.

Fixpoint all (f : ascii -> bool) (s : string) : bool :=
  match s with
  | EmptyString => true
  | String c s' => f c && all f s'
  end.

(** [s.isascii()]: every character is below 128. *)
Definition isascii (s : string) : bool := all (fun c => code c <? 128) s.

Fixpoint map (f : ascii -> ascii) (s : string) : string :=
  match s with
  | EmptyString => EmptyString
  | String c s' => String (f c) (map f s')
  end.

(** [bool(s)]: a string is truthy when it is not empty. *)
Definition truthy (s : string) : bool :=
  match s with EmptyString => false | String _ _ => true end.

Definition len (s : string) : nat := String.length s.

(** [s.lower()] *)
Definition lower (s : string) : string := map lower_c s.

(** [s.isupper()]: at least one cased character and no lower-case one. *)
Definition isupper (s : string) : bool :=
  any isupper_c s && negb (any islower_c s).

(** [s.capitalize()] *)
Definition capitalize (s : string) : string :=
  match s with
  | EmptyString => EmptyString
  | String c s' => String (upper_c c) (lower s')
  end.

Fixpoint lstrip (s : string) : string :=
  match s with
  | EmptyString => EmptyString
  | String c s' => if isspace c then lstrip s' else s
  end.

Definition rstrip (s : string) : string := String.rev (lstrip (String.rev s)).

(** [s.strip()] *)
Definition strip (s : string) : string := rstrip (lstrip s).

(** [needle in hay] *)
Fixpoint contains (needle hay : string) : bool :=
  String.prefix needle hay ||
  match hay with
  | EmptyString => false
  | String _ hay' => contains needle hay'
  end.

(** [s.count(c)] for a one-character [c] *)
Fixpoint count (c : ascii) (s : string) : nat :=
  match s with
  | EmptyString => 0
  | String x s' => (if Ascii.eqb x c then 1 else 0) + count c s'
  end.

(** [s.split()]: the maximal runs of non-whitespace characters.  [cur]
    holds the characters of the word being read, last one first. *)
Fixpoint split_go (cur : string) (s : string) : list string :=
  match s with
  | EmptyString => if truthy cur then [String.rev cur] else []
  | String c s' =>
      if isspace c
      then (if truthy cur then [String.rev cur] else []) ++ split_go EmptyString s'
      else split_go (String c cur) s'
  end.

Definition split (s : string) : list string := split_go EmptyString s.

(** [max(a, b)] and [min(a, b)] on floats: the first argument is kept
    unless the second is strictly better. *)
Definition max (a b : float) : float := if (a <? b)%float then b else a.
Definition min (a b : float) : float := if (b <? a)%float then b else a.

(** [n / d] and [float(n)] for the small non-negative integers that
    count words. *)
Definition float_of_nat (n : nat) : float :=
  PrimFloat.of_uint63 (Uint63.of_Z (Z.of_nat n)).

End Py.

(** ** The fragment of Python's [re] the two modules use

    A pattern is a sequence of tokens.  The matcher is the backtracking
    matcher of [re] written as a list of successes: [matches] returns every
    way the pattern can match at the current position, in the order
    backtracking would find them, so that the match [re] reports is the
    head of the list. *)

Module Re.

Inductive atom : Type :=
| AChr (c : ascii)      (** a literal character *)
| ADot                  (** [.]: any character but a line feed *)
| ABack1.               (** [\1]: the character group 1 holds *)

Inductive tok : Type :=
| One (a : atom)                (** [a] *)
| Opt (a : atom)                (** [a?], greedy *)
| AtLeast (n : nat) (a : atom)  (** [a{n,}], greedy *)
| Group1 (a : atom)             (** [(a)], captured as group 1 *)
| Alt (ws : list string)        (** [(w1|w2|...)] with literal alternatives *)
| WordB                         (** [\b] *)
| Bol.                          (** [^] *)

Definition regex : Type := list tok.

#[global] Instance atom_eq_dec : EqDecision atom.
Proof. solve_decision. Defined.

#[global] Instance tok_eq_dec : EqDecision tok.
Proof. solve_decision. Defined.

(** The tokens of a literal piece of a pattern. *)
Fixpoint lit (s : string) : regex :=
  match s with
  | EmptyString => []
  | String c s' => One (AChr c) :: lit s'
  end.

(** The least number of characters a match of the pattern reads. *)
Definition min_chars (t : tok) : nat :=
  match t with
  | One _ | Group1 _ => 1
  | AtLeast n _ => n
  | Opt _ | Alt _ | WordB | Bol => 0
  end.

Fixpoint min_len (p : regex) : nat :=
  match p with
  | [] => 0
  | t :: p' => min_chars t + min_len p'
  end.

(** A position in the subject: the content of group 1, the character just
    before the position ([None] at the start of the subject) and the text
    from the position on. *)
Record state : Type := State {
  grp : option ascii;
  prev : option ascii;
  rest : string
}.

Definition start (pv : option ascii) (s : string) : state :=
  {| grp := None; prev := pv; rest := s |}.

Section Matcher.

(** [re.IGNORECASE] *)
Variable icase : bool.

Definition eqc (a b : ascii) : bool :=
  if icase then Ascii.eqb (Py.lower_c a) (Py.lower_c b) else Ascii.eqb a b.

Definition atom_ok (g : option ascii) (a : atom) (x : ascii) : bool :=
  match a with
  | AChr c => eqc c x
  | ADot => negb (Ascii.eqb x "010")
  | ABack1 => match g with Some c => eqc c x | None => false end
  end.

Definition isword_opt (o : option ascii) : bool :=
  match o with Some c => Py.isword c | None => false end.

Definition next (s : string) : option ascii :=
  match s with EmptyString => None | String c _ => Some c end.

(** [\b] holds between a word character and a non-word character (the
    ends of the subject count as non-word). *)
Definition boundary (st : state) : bool :=
  xorb (isword_opt (prev st)) (isword_opt (next (rest st))).

(** One step over a character accepted by [a]. *)
Definition step (a : atom) (st : state) : option state :=
  match rest st with
  | String x s' =>
      if atom_ok (grp st) a x
      then Some {| grp := grp st; prev := Some x; rest := s' |}
      else None
  | EmptyString => None
  end.

(** The positions reached by reading characters accepted by [a], each
    with the number of characters read ([k] of them before [s]); the
    longest reading comes first, as a greedy repetition tries them. *)
Fixpoint runs (g : option ascii) (a : atom) (k : nat)
    (pv : option ascii) (s : string) : list (nat * state) :=
  match s with
  | String x s' => if atom_ok g a x then runs g a (S k) (Some x) s' else []
  | EmptyString => []
  end
  ++ [(k, {| grp := g; prev := pv; rest := s |})].

(** The number of leading characters of [s] that [a] accepts. *)
Fixpoint run_length (g : option ascii) (a : atom) (s : string) : nat :=
  match s with
  | String x s' => if atom_ok g a x then S (run_length g a s') else 0
  | EmptyString => 0
  end.

(** [s] without its first [n] characters, and the character before that
    position ([pv] is the character before [s]). *)
Fixpoint drop (n : nat) (s : string) : string :=
  match n, s with
  | S k, String _ s' => drop k s'
  | _, _ => s
  end.

Fixpoint before (n : nat) (pv : option ascii) (s : string) : option ascii :=
  match n, s with
  | S k, String x s' => before k (Some x) s'
  | _, _ => pv
  end.

(** Reading the literal [w]. *)
Fixpoint eat (w : string) (st : state) : option state :=
  match w with
  | EmptyString => Some st
  | String c w' =>
      match step (AChr c) st with
      | Some st' => eat w' st'
      | None => None
      end
  end.

Fixpoint matches (p : regex) (st : state) : list state :=
  match p with
  | [] => [st]
  | One a :: p' =>
      match step a st with Some st' => matches p' st' | None => [] end
  | Group1 a :: p' =>
      match step a st with
      | Some st' =>
          matches p' {| grp := prev st'; prev := prev st'; rest := rest st' |}
      | None => []
      end
  | Opt a :: p' =>
      match step a st with Some st' => matches p' st' | None => [] end
      ++ matches p' st
  | AtLeast n a :: p' =>
      flat_map (fun ks : nat * state =>
                  if n <=? fst ks then matches p' (snd ks) else [])
               (runs (grp st) a 0 (prev st) (rest st))
  | Alt ws :: p' =>
      flat_map (fun w =>
                  match eat w st with
                  | Some st' => matches p' st'
                  | None => []
                  end) ws
  | WordB :: p' => if boundary st then matches p' st else []
  | Bol :: p' =>
      match prev st with None => matches p' st | Some _ => [] end
  end.

(** The match found at a given position, if any. *)
Definition match_at (p : regex) (pv : option ascii) (s : string) : option state :=
  head (matches p (start pv s)).

(** [re.match(p, s)]: a match at the start of [s]. *)
Definition match_ (p : regex) (s : string) : bool :=
  bool_decide (is_Some (match_at p None s)).

(** [re.search(p, s)]: the leftmost position with a match. *)
Fixpoint search_from (p : regex) (pv : option ascii) (s : string) : bool :=
  match match_at p pv s with
  | Some _ => true
  | None =>
      match s with
      | String x s' => search_from p (Some x) s'
      | EmptyString => false
      end
  end.

Definition search (p : regex) (s : string) : bool := search_from p None s.

(** [re.sub(p, repl, s)] for a replacement without escapes: the
    non-overlapping matches, leftmost first, are replaced by [repl].
    [skip] counts the characters of the current match still to be
    dropped.  Every pattern of the two modules reads at least one
    character; a match of the empty string, which they cannot produce,
    is passed over. *)
Fixpoint sub_go (p : regex) (repl : string) (skip : nat)
    (pv : option ascii) (s : string) : string :=
  match skip, s with
  | _, EmptyString => EmptyString
  | S k, String x s' => sub_go p repl k (Some x) s'
  | 0, String x s' =>
      match match_at p pv s with
      | Some m =>
          match String.length s - String.length (rest m) with
          | S k => repl +:+ sub_go p repl k (Some x) s'
          | 0 => String x (sub_go p repl 0 (Some x) s')
          end
      | None => String x (sub_go p repl 0 (Some x) s')
      end
  end.

Definition sub (p : regex) (repl : string) (s : string) : string :=
  sub_go p repl 0 None s.

End Matcher.

End Re.

(** ** [toxicity_analyzer.py] *)

Module ToxicityAnalyzer.

(** [config.CONFIDENCE_THRESHOLD] *)
Definition CONFIDENCE_THRESHOLD : float := 0.6.

Record pattern : Type := Pattern {
  pat_keywords : list string;
  pat_severity : float
}.

(** [self.toxic_patterns], in insertion order. *)
Definition toxic_patterns : list (string * pattern) :=
  [ ("hate_speech", Pattern ["hate"; "despise"; "detest"; "loathe"] 0.9);
    ("insults", Pattern ["stupid"; "idiot"; "dumb"; "moron"; "fool"; "imbecile"] 0.7);
    ("profanity", Pattern ["damn"; "hell"; "crap"] 0.5);
    ("aggressive", Pattern ["shut up"; "get lost"; "go away"] 0.8);
    ("derogatory",
      Pattern ["loser"; "pathetic"; "worthless"; "useless"; "garbage"; "trash"] 0.8);
    ("offensive", Pattern ["disgusting"; "ugly"; "freak"; "weird"; "creep"] 0.7) ].

(** [self.context_multipliers] *)
Record multipliers : Type := Multipliers {
  repeated_chars : float;
  all_caps : float;
  multiple_exclamation : float
}.

Definition context_multipliers : multipliers :=
  {| repeated_chars := 1.2; all_caps := 1.3; multiple_exclamation := 1.2 |}.

(** The dictionary [analyze] returns. *)
Record verdict : Type := Verdict {
  isToxic : bool;
  confidence : float;
  severity : float;
  keywords : gset string;
  categories : gset string;
  suggestions : list string;
  originalText : option string
}.

(** [not text or not text.strip()] *)
Definition blank (text : string) : bool :=
  negb (Py.truthy text) || negb (Py.truthy (Py.strip text)).

(** The three locals the matching loops update. *)
Record scan : Type := Scan {
  found_keywords : list string;
  found_categories : list string;
  max_severity : float
}.

Definition scan0 : scan :=
  {| found_keywords := []; found_categories := []; max_severity := 0.0 |}.

(** The body of the inner loop. *)
Definition scan_keyword (text_lower category : string) (data : pattern)
    (st : scan) (keyword : string) : scan :=
  if Py.contains keyword text_lower
  then {| found_keywords := found_keywords st ++ [keyword];
          found_categories := found_categories st ++ [category];
          max_severity := Py.max (max_severity st) (pat_severity data) |}
  else st.

(** The body of the outer loop. *)
Definition scan_category (text_lower : string) (st : scan)
    (entry : string * pattern) : scan :=
  fold_left (scan_keyword text_lower (fst entry) (snd entry))
            (pat_keywords (snd entry)) st.

Definition scan_patterns (text_lower : string) : scan :=
  fold_left (scan_category text_lower) toxic_patterns scan0.

(** [r'(.)\1{2,}'] *)
Definition repeated_re : Re.regex := [Re.Group1 Re.ADot; Re.AtLeast 2 Re.ABack1].

Definition _analyze_context (text : string) : float :=
  let multiplier := 1.0%float in
  let multiplier :=
    if Re.search false repeated_re text
    then (multiplier * repeated_chars context_multipliers)%float
    else multiplier in
  let multiplier :=
    if (10 <? Py.len text) && Py.isupper text
    then (multiplier * all_caps context_multipliers)%float
    else multiplier in
  let multiplier :=
    if 2 <=? Py.count "!" text
    then (multiplier * multiple_exclamation context_multipliers)%float
    else multiplier in
  multiplier.

Definition mem (x : string) (l : list string) : bool := bool_decide (x ∈ l).

Definition _generate_suggestions (categories : list string) : list string :=
  let suggestions := [] in
  let suggestions :=
    if mem "hate_speech" categories
    then suggestions ++ ["Consider expressing disagreement without using hateful language"]
    else suggestions in
  let suggestions :=
    if mem "insults" categories
    then suggestions ++ ["Try focusing on the issue rather than personal attacks"]
    else suggestions in
  let suggestions :=
    if mem "aggressive" categories
    then suggestions ++ ["A calmer tone might lead to better communication"]
    else suggestions in
  let suggestions :=
    if mem "derogatory" categories
    then suggestions ++ ["Respectful language helps maintain positive relationships"]
    else suggestions in
  suggestions.

Definition analyze (text : string) : verdict :=
  if blank text then
    {| isToxic := false;
       confidence := 0.0;
       severity := 0.0;
       keywords := ∅;
       categories := ∅;
       suggestions := [];
       originalText := None |}
  else
    let text_lower := Py.lower text in
    let st := scan_patterns text_lower in
    let context_score := _analyze_context text in
    let adjusted_severity :=
      Py.min (max_severity st * context_score)%float 1.0 in
    let is_toxic :=
      (0 <? length (found_keywords st))
      && (CONFIDENCE_THRESHOLD <=? adjusted_severity)%float in
    {| isToxic := is_toxic;
       confidence := adjusted_severity;
       severity := adjusted_severity;
       keywords := list_to_set (found_keywords st);
       categories := list_to_set (found_categories st);
       suggestions :=
         if is_toxic then _generate_suggestions (found_categories st) else [];
       originalText := Some text |}.

(** [batch_analyze]: the list comprehension over [texts]. *)
Definition batch_analyze (texts : list string) : list verdict :=
  List.map analyze texts.

(** [get_toxicity_score]: the [severity] entry of the verdict, a key both
    return statements of [analyze] provide. *)
Definition get_toxicity_score (text : string) : float :=
  severity (analyze text).

End ToxicityAnalyzer.

(** ** [text_rephraser.py] *)

Module TextRephraser.

Record rule : Type := Rule {
  pattern : Re.regex;
  replacement : string;
  flags : bool          (** [re.IGNORECASE] *)
}.

(** [r'\b...\b'] around a phrase, and [c?]. *)
Definition word (body : Re.regex) : Re.regex := [Re.WordB] ++ body ++ [Re.WordB].
Definition opt (c : ascii) : Re.regex := [Re.Opt (Re.AChr c)].

Definition IGNORECASE : bool := true.

(** [self.phrase_rules], in list order. *)
Definition phrase_rules : list rule :=
  [ Rule (word (Re.lit "you are stupid"))
      "I disagree with your approach" IGNORECASE;
    Rule (word (Re.lit "you" ++ opt "'" ++ Re.lit "re stupid"))
      "I see things differently" IGNORECASE;
    Rule (word (Re.lit "shut up"))
      "I'd prefer if we could discuss this calmly" IGNORECASE;
    Rule (word (Re.lit "you" ++ opt "'" ++ Re.lit "re a" ++ opt "n" ++ Re.lit " idiot"))
      "I think there might be a misunderstanding" IGNORECASE;
    Rule (word (Re.lit "you are a" ++ opt "n" ++ Re.lit " idiot"))
      "I think there might be a misunderstanding" IGNORECASE;
    Rule (word (Re.lit "i hate you"))
      "I'm frustrated with this situation" IGNORECASE;
    Rule (word (Re.lit "you" ++ opt "'" ++ Re.lit "re dumb"))
      "I believe there's a better way to think about this" IGNORECASE;
    Rule (word (Re.lit "you are dumb"))
      "I believe there's a better way to think about this" IGNORECASE;
    Rule (word (Re.lit "you" ++ opt "'" ++ Re.lit "re a loser"))
      "I'm disappointed with how things turned out" IGNORECASE;
    Rule (word (Re.lit "you" ++ opt "'" ++ Re.lit "re pathetic"))
      "I expected better from this situation" IGNORECASE;
    Rule (word (Re.lit "you" ++ opt "'" ++ Re.lit "re worthless"))
      "I don't think this is working out" IGNORECASE;
    Rule (word (Re.lit "you" ++ opt "'" ++ Re.lit "re useless"))
      "I think we need a different approach" IGNORECASE;
    Rule (word (Re.lit "that" ++ opt "'" ++ Re.lit "s garbage"))
      "I don't think that's the best solution" IGNORECASE;
    Rule (word (Re.lit "that" ++ opt "'" ++ Re.lit "s trash"))
      "I believe we can do better" IGNORECASE;
    Rule (word (Re.lit "you" ++ opt "'" ++ Re.lit "re disgusting"))
      "I'm uncomfortable with this behavior" IGNORECASE;
    Rule (word (Re.lit "moron")) "person with a different viewpoint" IGNORECASE;
    Rule (word (Re.lit "stupid")) "unclear" IGNORECASE;
    Rule (word (Re.lit "idiot")) "someone I disagree with" IGNORECASE;
    Rule (word (Re.lit "dumb")) "not well thought out" IGNORECASE;
    Rule (word (Re.lit "hate")) "strongly dislike" IGNORECASE ].

(** The dictionary [rephrase] returns. *)
Record result : Type := Result {
  original : string;
  rephrased : string;
  modified : bool;
  confidence : float;
  keywords : option (list string)
}.

(** [r'!{2,}'] and [r'^(you|this|that)\b'] *)
Definition exclamations_re : Re.regex := [Re.AtLeast 2 (Re.AChr "!")].
Definition strong_start_re : Re.regex :=
  [Re.Bol; Re.Alt ["you"; "this"; "that"]; Re.WordB].

(** [s[0].lower() + s[1:]]; the caller has matched a word at the start of
    [s], so [s] is not empty there. *)
Definition lower_first (s : string) : string :=
  match s with
  | EmptyString => EmptyString
  | String c s' => String (Py.lower_c c) s'
  end.

Definition _general_softening (text : string) : string :=
  let softened := text in
  let softened := Re.sub false exclamations_re "." softened in
  let softened :=
    if (10 <? Py.len softened) && Py.isupper softened
    then Py.capitalize softened
    else softened in
  let softened :=
    if Re.match_ IGNORECASE strong_start_re softened
    then "Perhaps " +:+ lower_first softened
    else softened in
  softened.

Definition _calculate_confidence (original rephrased : string) : float :=
  if String.eqb original rephrased then 0.0%float
  else
    let original_words : gset string := list_to_set (Py.split (Py.lower original)) in
    let rephrased_words : gset string := list_to_set (Py.split (Py.lower rephrased)) in
    let changed_ratio :=
      (Py.float_of_nat (size (original_words ∖ rephrased_words))
       / Py.float_of_nat (Nat.max (size original_words) 1))%float in
    Py.min (changed_ratio * 2)%float 1.0.

(** The body of the loop over [self.phrase_rules], on the pair of locals
    [(rephrased, modified)]. *)
Definition apply_rule (st : string * bool) (r : rule) : string * bool :=
  if Re.search (flags r) (pattern r) (fst st)
  then (Re.sub (flags r) (pattern r) (replacement r) (fst st), true)
  else st.

Definition apply_rules (rules : list rule) (text : string) : string * bool :=
  fold_left apply_rule rules (text, false).

(** [bool(keywords)] and [keywords or []] for [Optional[List[str]]]. *)
Definition supplied (keywords : option (list string)) : bool :=
  match keywords with
  | Some (_ :: _) => true
  | _ => false
  end.

Definition or_empty (keywords : option (list string)) : list string :=
  match keywords with
  | Some l => l
  | None => []
  end.

Definition rephrase (text : string) (keywords : option (list string)) : result :=
  if ToxicityAnalyzer.blank text then
    {| original := text;
       rephrased := text;
       modified := false;
       confidence := 0.0;
       keywords := None |}
  else
    let st := apply_rules phrase_rules text in
    let st :=
      if negb (snd st) && supplied keywords
      then let softened := _general_softening text in
           (softened, negb (String.eqb softened text))
      else st in
    {| original := text;
       rephrased := fst st;
       modified := snd st;
       confidence := _calculate_confidence text (fst st);
       keywords := Some (or_empty keywords) |}.

(** The two keys of [toxicity_info] that [get_suggestion] reads with
    [dict.get]; either may be missing ([None]). *)
Record toxicity_info : Type := Info {
  info_keywords : option (list string);
  info_categories : option (list string)
}.

(** The dictionary [get_suggestion] returns. *)
Record suggestion : Type := Suggestion {
  sg_original : string;
  sg_rephrased : string;
  sg_reason : string;
  sg_confidence : float;
  sg_keywords : list string;
  sg_categories : list string
}.

(** [sep.join(l)] *)
Fixpoint join (sep : string) (l : list string) : string :=
  match l with
  | [] => EmptyString
  | [x] => x
  | x :: l' => x +:+ sep +:+ join sep l'
  end.

(** [d.get(key, [])] *)
Definition get_or_empty (entry : option (list string)) : list string :=
  match entry with
  | Some l => l
  | None => []
  end.

(** [get_suggestion]; the two keys it reads from the result of [rephrase],
    [rephrased] and [confidence], are in both of its return statements. *)
Definition get_suggestion (text : string) (info : toxicity_info) : suggestion :=
  let rephrase_result := rephrase text (Some (get_or_empty (info_keywords info))) in
  {| sg_original := text;
     sg_rephrased := rephrased rephrase_result;
     sg_reason :=
       "Contains potentially harmful language: "
       +:+ join ", " (get_or_empty (info_keywords info));
     sg_confidence := confidence rephrase_result;
     sg_keywords := get_or_empty (info_keywords info);
     sg_categories := get_or_empty (info_categories info) |}.

(** [batch_rephrase]: [rephrase] with its default [keywords=None] on each
    text. *)
Definition batch_rephrase (texts : list string) : list result :=
  List.map (fun text => rephrase text None) texts.

End TextRephraser.

(** ** The specification's wording, as definitions

    The definitions of this module follow the sentences of the
    specification, not the code; the theorems below compare them with the
    code. *)

Module Spec.

Import ToxicityAnalyzer.

Definition LF : ascii := "010".

(** "text is empty or whitespace-only" *)
Definition whitespace_only (text : string) : bool := Py.all Py.isspace text.

(** "a category with at least one matching keyword": some keyword of the
    category is a substring of the lower-cased text. *)
Definition hit (text_lower : string) (data : pattern) : bool :=
  existsb (fun keyword => Py.contains keyword text_lower) (pat_keywords data).

Definition category_matches (text : string) (data : pattern) : bool :=
  hit (Py.lower text) data.

(** The maximum of a list of severities, 0 for the empty list. *)
Definition maximum (l : list float) : float := fold_left Py.max l 0.0%float.

Definition maxSeverity (text : string) : float :=
  maximum (List.map pat_severity
             (List.filter (category_matches text) (List.map snd toxic_patterns))).

(** "a character repeated three or more times consecutively", for the
    characters [ok] admits: some position holds such a character and the
    next two positions hold the same one. *)
Definition twice_more (a : ascii) (s : string) : bool :=
  match s with
  | String b (String c _) => Ascii.eqb a b && Ascii.eqb a c
  | _ => false
  end.

Fixpoint repeated3 (ok : ascii -> bool) (s : string) : bool :=
  match s with
  | String a s' => (ok a && twice_more a s') || repeated3 ok s'
  | EmptyString => false
  end.

Definition any_char (c : ascii) : bool := true.
Definition not_newline (c : ascii) : bool := negb (Ascii.eqb c LF).

(** "length greater than 10 and entirely upper-case" *)
Definition shouting (text : string) : bool :=
  (10 <? String.length text) && Py.isupper text.

(** "at least two exclamation marks" *)
Definition exclaiming (text : string) : bool := 2 <=? Py.count "!" text.

(** The product of the factors whose condition holds. *)
Definition product (factors : list (bool * float)) : float :=
  fold_left (fun (m : float) (bf : bool * float) =>
               if fst bf then (m * snd bf)%float else m) factors 1.0%float.

Definition contextMultiplier (ok : ascii -> bool) (text : string) : float :=
  product [ (repeated3 ok text, 1.2%float);
            (shouting text, 1.3%float);
            (exclaiming text, 1.2%float) ].

(** "adjustedSeverity = min(maxSeverity x contextMultiplier, 1.0)" *)
Definition adjustedSeverity (ok : ascii -> bool) (text : string) : float :=
  Py.min (maxSeverity text * contextMultiplier ok text)%float 1.0.

(** "collapse runs of 2+ exclamation marks into a single period"; [n]
    counts the exclamation marks read since the last other character. *)
Definition flush (n : nat) : string :=
  match n return string with
  | 0 => ""
  | 1 => "!"
  | _ => "."
  end.

Fixpoint collapse_go (n : nat) (s : string) : string :=
  match s with
  | EmptyString => flush n
  | String x s' =>
      if Ascii.eqb x "!" then collapse_go (S n) s'
      else flush n +:+ String x (collapse_go 0 s')
  end.

Definition collapse_exclamations (s : string) : string := collapse_go 0 s.

(** "convert to sentence case (capitalize first letter, lower-case the
    rest)" *)
Definition sentence_case (s : string) : string :=
  match s with
  | EmptyString => EmptyString
  | String c s' => String (Py.upper_c c) (Py.map Py.lower_c s')
  end.

(** "the text begins with [w] (case-insensitive, word boundary)" *)
Definition char_at (n : nat) (s : string) : option ascii := String.get n s.

Definition begins_with_word (w s : string) : bool :=
  String.prefix w (Py.lower s)
  && negb (Re.isword_opt (char_at (String.length w) s)).

Definition strong_start (s : string) : bool :=
  begins_with_word "you" s || begins_with_word "this" s || begins_with_word "that" s.

Definition hedge (s : string) : string :=
  match s with
  | EmptyString => "Perhaps "
  | String c s' => "Perhaps " +:+ String (Py.lower_c c) s'
  end.

(** The generic softening transform, step after step. *)
Definition soften (text : string) : string :=
  let s1 := collapse_exclamations text in
  let s2 := if (10 <? String.length s1) && Py.isupper s1 then sentence_case s1 else s1 in
  if strong_start s2 then hedge s2 else s2.

(** "the set of words (lower-cased, whitespace-split)", as a list without
    repetition. *)
Definition W (s : string) : list string := remove_dups (Py.split (Py.lower s)).

(** The words of [W(original)] that are not in [W(rephrased)]. *)
Definition dropped (original rephrased : string) : list string :=
  filter (λ w, w ∉ W rephrased) (W original).

(** The change confidence for a given count of the original's words. *)
Definition change_confidence (wordCount : string -> nat)
    (original rephrased : string) : float :=
  if String.eqb original rephrased then 0.0%float
  else Py.min
         (Py.float_of_nat (length (dropped original rephrased))
          / Py.float_of_nat (Nat.max (wordCount original) 1) * 2)%float 1.0.

(** "the number of words of the original text" and the number of its
    distinct lower-cased words. *)
Definition word_count (s : string) : nat := length (Py.split s).
Definition distinct_word_count (s : string) : nat := length (W s).

(** "replace ALL occurrences per the rule's replacement".  An occurrence
    of a rule's pattern at a position of the text is a match there that
    reads at least one character; [occurrence] gives the position right
    after it.  The text is read from left to right: where an occurrence
    starts, the replacement is written in its place and reading goes on
    right after it, up to the end of the text; any other character is
    kept.  [n] bounds the number of steps, one for a character kept or an
    occurrence replaced. *)
Definition occurrence (r : TextRephraser.rule) (pv : option ascii) (s : string)
    : option Re.state :=
  match Re.match_at (TextRephraser.flags r) (TextRephraser.pattern r) pv s with
  | Some m =>
      if String.length (Re.rest m) <? String.length s then Some m else None
  | None => None
  end.

Fixpoint replace_from (n : nat) (r : TextRephraser.rule)
    (pv : option ascii) (s : string) : string :=
  match n, s with
  | S n', String x s' =>
      match occurrence r pv s with
      | Some m =>
          TextRephraser.replacement r +:+ replace_from n' r (Re.prev m) (Re.rest m)
      | None => String x (replace_from n' r (Some x) s')
      end
  | _, _ => s
  end.

Definition replace_all (r : TextRephraser.rule) (s : string) : string :=
  replace_from (String.length s) r None s.

(** The rules in their listed order, each with the text it is applied
    to: the output of the rules before it. *)

Definition fires (r : TextRephraser.rule) (s : string) : bool :=
  Re.search (TextRephraser.flags r) (TextRephraser.pattern r) s.

Fixpoint turns (rules : list TextRephraser.rule) (s : string)
    : list (TextRephraser.rule * string) :=
  match rules with
  | [] => []
  | r :: rules' => (r, s) :: turns rules' (replace_all r s)
  end.

Definition some_rule_fires (rules : list TextRephraser.rule) (s : string) : bool :=
  existsb (fun rs => fires (fst rs) (snd rs)) (turns rules s).

Definition compose_rules (rules : list TextRephraser.rule) (s : string) : string :=
  fold_left (fun t r => replace_all r t) rules s.

(** A rule's phrase: its pattern without the two [\b]. *)
Definition phrase (r : TextRephraser.rule) : Re.regex :=
  removelast (tail (TextRephraser.pattern r)).

(** Every occurrence of the phrase in [s] is a proper part of a longer
    word: a word character stands right before it or right after it.
    [pv] is the character before [s]. *)
Fixpoint inside_words_from (icase : bool) (body : Re.regex)
    (pv : option ascii) (s : string) : bool :=
  forallb (fun m => Re.isword_opt pv || Re.isword_opt (Re.next (Re.rest m)))
          (Re.matches icase body (Re.start pv s))
  && match s with
     | EmptyString => true
     | String x s' => inside_words_from icase body (Some x) s'
     end.

Definition only_inside_words (r : TextRephraser.rule) (s : string) : bool :=
  inside_words_from (TextRephraser.flags r) (phrase r) None s.

(** The shape of the rule patterns: [\b], a phrase that begins and ends
    with a literal word character, [\b]. *)
Definition wordy (t : option Re.tok) : bool :=
  match t with
  | Some (Re.One (Re.AChr c)) => Py.isword c
  | _ => false
  end.

Definition anchored (r : TextRephraser.rule) : bool :=
  bool_decide (TextRephraser.pattern r = TextRephraser.word (phrase r))
  && wordy (head (phrase r)) && wordy (last (phrase r)).

(** No rule other than the [i]-th matches [s]; [j] is the index of the
    first rule of [rules]. *)
Fixpoint silent_from (j i : nat) (rules : list TextRephraser.rule) (s : string) : bool :=
  match rules with
  | [] => true
  | r :: rules' =>
      (Nat.eqb j i || negb (fires r s)) && silent_from (S j) i rules' s
  end.

Definition silent_except (i : nat) (s : string) : bool :=
  silent_from 0 i TextRephraser.phrase_rules s.

End Spec.

(** ** Sample inputs *)

Module Sample.

(** The seven characters [stupid] followed by three line feeds. *)
Definition stupid_and_blank_lines : string :=
  "stupid" +:+ String Spec.LF (String Spec.LF (String Spec.LF EmptyString)).

Definition proverb : string := "stupid is as stupid does".

End Sample.

(** ** [app.py]: the combined endpoint *)

Module App.

(** The verdict as the dictionary [get_suggestion] receives.  Its
    [keywords] and [categories] entries are the lists [list(set(...))]
    produced; [list_keywords] and [list_categories] stand for the order in
    which the two sets were listed. *)
Definition info_of (list_keywords list_categories : gset string -> list string)
    (v : ToxicityAnalyzer.verdict) : TextRephraser.toxicity_info :=
  {| TextRephraser.info_keywords := Some (list_keywords (ToxicityAnalyzer.keywords v));
     TextRephraser.info_categories :=
       Some (list_categories (ToxicityAnalyzer.categories v)) |}.

(** The body of [analyze_and_rephrase] between reading [text] from the
    request and [jsonify]: the pair of the [toxicity] and [suggestion]
    entries of the response, [None] for [suggestion: null]. *)
Definition analyze_and_rephrase
    (list_keywords list_categories : gset string -> list string) (text : string)
    : ToxicityAnalyzer.verdict * option TextRephraser.suggestion :=
  let toxicity_result := ToxicityAnalyzer.analyze text in
  let suggestion :=
    if ToxicityAnalyzer.isToxic toxicity_result
    then Some (TextRephraser.get_suggestion text
                 (info_of list_keywords list_categories toxicity_result))
    else None in
  (toxicity_result, suggestion).

End App.

(** ** Notions used to state further properties of the code *)

Module Aux.

Import ToxicityAnalyzer.

(** The keywords of the whole table, and the table split into the
    [profanity] entry and the others. *)
Definition all_keywords : list string :=
  flat_map pat_keywords (List.map snd toxic_patterns).

Definition is_profanity (entry : string * pattern) : bool :=
  String.eqb (fst entry) "profanity".

Definition mild_patterns : list pattern :=
  List.map snd (List.filter is_profanity toxic_patterns).

Definition strong_patterns : list pattern :=
  List.map snd (List.filter (fun e => negb (is_profanity e)) toxic_patterns).

Definition strong_keywords : list string := flat_map pat_keywords strong_patterns.

(** The categories [_generate_suggestions] looks for, each with its
    advisory, in the order of the tests. *)
Definition advisories : list (string * string) :=
  [ ("hate_speech", "Consider expressing disagreement without using hateful language");
    ("insults", "Try focusing on the issue rather than personal attacks");
    ("aggressive", "A calmer tone might lead to better communication");
    ("derogatory", "Respectful language helps maintain positive relationships") ].

(** Some context test holds on the text. *)
Definition intense (text : string) : bool :=
  Spec.repeated3 Spec.not_newline text || Spec.shouting text || Spec.exclaiming text.

(** [m] is a position of the text of [st], [k] characters further on. *)
Definition ahead (k : nat) (st m : Re.state) : Prop :=
  k ≤ String.length (Re.rest st)
  ∧ Re.rest m = Re.drop k (Re.rest st)
  ∧ Re.prev m = Re.before k (Re.prev st) (Re.rest st).

(** Two exclamation marks in a row. *)
Definition starts_bang (s : string) : bool :=
  match s with
  | String c _ => Ascii.eqb c "!"
  | EmptyString => false
  end.

Fixpoint double_bang (s : string) : bool :=
  match s with
  | String c s' => (Ascii.eqb c "!" && starts_bang s') || double_bang s'
  | EmptyString => false
  end.

(** The literal [w] at the head of a pattern, and somewhere in it. *)
Fixpoint strip_lit (w : string) (p : Re.regex) : option Re.regex :=
  match w with
  | EmptyString => Some p
  | String c w' =>
      match p with
      | Re.One (Re.AChr c') :: p' =>
          if Ascii.eqb c c' then strip_lit w' p' else None
      | _ => None
      end
  end.

Fixpoint has_lit (w : string) (p : Re.regex) : bool :=
  match strip_lit w p with
  | Some _ => true
  | None =>
      match p with
      | [] => false
      | _ :: p' => has_lit w p'
      end
  end.

(** A rule that ignores case and whose pattern spells out a keyword of a
    category other than [profanity]. *)
Definition names_strong_keyword (r : TextRephraser.rule) : bool :=
  TextRephraser.flags r
  && existsb (fun w => has_lit w (TextRephraser.pattern r)) strong_keywords.

End Aux.


(** * Theorems *)

(** ** Facts about the Python built-ins *)

Lemma all_rev_app f s1 s2 :
  Py.all f (String.rev_app s1 s2) = Py.all f s1 && Py.all f s2.
Proof.
  revert s2. induction s1 as [|c s1 IH]; intros s2; simpl; [done|].
  rewrite IH. simpl. destruct (f c), (Py.all f s1), (Py.all f s2); done.
Qed.

Lemma all_rev f s : Py.all f (String.rev s) = Py.all f s.
Proof. unfold String.rev. rewrite all_rev_app. simpl. apply andb_true_r. Qed.

Lemma truthy_rev_app s1 s2 :
  Py.truthy (String.rev_app s1 s2) = Py.truthy s1 || Py.truthy s2.
Proof.
  revert s2. induction s1 as [|c s1 IH]; intros s2; simpl; [done|].
  rewrite IH. simpl. apply orb_true_r.
Qed.

Lemma truthy_rev s : Py.truthy (String.rev s) = Py.truthy s.
Proof. unfold String.rev. rewrite truthy_rev_app. simpl. apply orb_false_r. Qed.

Lemma truthy_lstrip s : Py.truthy (Py.lstrip s) = negb (Py.all Py.isspace s).
Proof.
  induction s as [|c s IH]; simpl; [done|].
  destruct (Py.isspace c); simpl; [exact IH | done].
Qed.

Lemma all_isspace_lstrip s :
  Py.all Py.isspace (Py.lstrip s) = Py.all Py.isspace s.
Proof.
  induction s as [|c s IH]; simpl; [done|].
  destruct (Py.isspace c) eqn:E; simpl; [exact IH | by rewrite E].
Qed.

Lemma truthy_strip s : Py.truthy (Py.strip s) = negb (Py.all Py.isspace s).
Proof.
  unfold Py.strip, Py.rstrip.
  rewrite truthy_rev, truthy_lstrip, all_rev, all_isspace_lstrip. done.
Qed.

(** The guard [not text or not text.strip()] holds exactly for the texts
    that are empty or made of whitespace only. *)
Lemma blank_spec text : ToxicityAnalyzer.blank text = Spec.whitespace_only text.
Proof.
  unfold ToxicityAnalyzer.blank, Spec.whitespace_only.
  rewrite truthy_strip, negb_involutive.
  destruct text; simpl; done.
Qed.

Lemma isword_lower_c c : Py.isword (Py.lower_c c) = Py.isword c.
Proof. destruct c as [[] [] [] [] [] [] [] []]; reflexivity. Qed.

Lemma isspace_not_cased c :
  Py.isspace c = true →
  Py.isupper_c c = false ∧ Py.islower_c c = false ∧ Py.isword c = false
  ∧ Ascii.eqb c "!" = false.
Proof. destruct c as [[] [] [] [] [] [] [] []]; cbv; intros; done. Qed.

(** ** Facts about float [max] and the matching loops *)

Lemma max_idem m s : Py.max (Py.max m s) s = Py.max m s.
Proof.
  unfold Py.max. destruct (m <? s)%float eqn:E.
  - destruct (s <? s)%float; reflexivity.
  - rewrite E. reflexivity.
Qed.

Section Scan.

Import ToxicityAnalyzer.

Variable text_lower : string.

#[local] Abbreviation hit := (Spec.hit text_lower).

Lemma scan_keywords_max category data ks st :
  max_severity (fold_left (scan_keyword text_lower category data) ks st) =
  if existsb (fun keyword => Py.contains keyword text_lower) ks
  then Py.max (max_severity st) (pat_severity data)
  else max_severity st.
Proof.
  revert st. induction ks as [|k ks IH]; intros st; simpl; [done|].
  rewrite IH. unfold scan_keyword.
  destruct (Py.contains k text_lower); simpl; [|done].
  rewrite max_idem. by destruct (existsb _ ks).
Qed.

Lemma scan_keywords_found category data ks st :
  (0 <? length (found_keywords (fold_left (scan_keyword text_lower category data) ks st))) =
  (0 <? length (found_keywords st))
  || existsb (fun keyword => Py.contains keyword text_lower) ks.
Proof.
  revert st. induction ks as [|k ks IH]; intros st; simpl; [by rewrite orb_false_r|].
  rewrite IH. unfold scan_keyword.
  destruct (Py.contains k text_lower); simpl; [|done].
  rewrite length_app. simpl.
  replace (0 <? length (found_keywords st) + 1) with true
    by (symmetry; apply Nat.ltb_lt; lia).
  by rewrite orb_true_r.
Qed.

Lemma scan_table_max table st :
  max_severity (fold_left (scan_category text_lower) table st) =
  fold_left Py.max (List.map pat_severity (List.filter hit (List.map snd table)))
            (max_severity st).
Proof.
  revert st. induction table as [|[category data] table IH]; intros st; simpl; [done|].
  rewrite IH. unfold scan_category. simpl.
  rewrite scan_keywords_max. fold (hit data).
  by destruct (hit data).
Qed.

Lemma scan_table_found table st :
  (0 <? length (found_keywords (fold_left (scan_category text_lower) table st))) =
  (0 <? length (found_keywords st)) || existsb hit (List.map snd table).
Proof.
  revert st. induction table as [|[category data] table IH]; intros st; simpl;
    [by rewrite orb_false_r|].
  rewrite IH. unfold scan_category. simpl.
  rewrite scan_keywords_found. fold (hit data). by rewrite orb_assoc.
Qed.

End Scan.

(** The running maximum of the loops is the maximum over the matched
    categories. *)
Lemma scan_patterns_max text :
  ToxicityAnalyzer.max_severity (ToxicityAnalyzer.scan_patterns (Py.lower text)) =
  Spec.maxSeverity text.
Proof.
  unfold ToxicityAnalyzer.scan_patterns. rewrite scan_table_max. reflexivity.
Qed.

(** ** The toxicity verdict *)

Section Verdict.

Import ToxicityAnalyzer.

(** What [analyze] returns on a blank text. *)
Lemma analyze_blank text :
  Spec.whitespace_only text = true →
  analyze text =
  {| isToxic := false; confidence := 0.0; severity := 0.0; keywords := ∅;
     categories := ∅; suggestions := []; originalText := None |}.
Proof. intros H. unfold analyze. by rewrite blank_spec, H. Qed.

(** What [analyze] returns on any other text. *)
Lemma analyze_not_blank text :
  Spec.whitespace_only text = false →
  severity (analyze text) =
    Py.min (Spec.maxSeverity text * _analyze_context text)%float 1.0
  ∧ confidence (analyze text) = severity (analyze text)
  ∧ originalText (analyze text) = Some text.
Proof.
  intros H. unfold analyze. rewrite blank_spec, H. simpl.
  by rewrite scan_patterns_max.
Qed.

(** The multiplier is the product of the factors of the tests that hold,
    whatever the outcome of the three tests. *)
Lemma context_product (b1 b2 b3 : bool) :
  (let m := 1.0%float in
   let m := if b1 then (m * repeated_chars context_multipliers)%float else m in
   let m := if b2 then (m * all_caps context_multipliers)%float else m in
   let m := if b3 then (m * multiple_exclamation context_multipliers)%float else m in
   m) = Spec.product [(b1, 1.2%float); (b2, 1.3%float); (b3, 1.2%float)].
Proof. reflexivity. Qed.

(** Whatever the categories that matched and the tests that held, the
    adjusted severity lies between 0 and 1. *)
Lemma adjusted_in_unit (f : pattern → bool) (b1 b2 b3 : bool) :
  let x :=
    Py.min (Spec.maximum (List.map pat_severity
                            (List.filter f (List.map snd toxic_patterns)))
            * Spec.product [(b1, 1.2%float); (b2, 1.3%float); (b3, 1.2%float)])%float
           1.0 in
  (0 <=? x)%float = true ∧ (x <=? 1)%float = true.
Proof.
  unfold toxic_patterns. simpl List.map at 2. simpl List.filter.
  repeat match goal with
         | |- context [if f ?p then _ else _] => destruct (f p)
         end;
    destruct b1, b2, b3; vm_compute; done.
Qed.

End Verdict.

(** C9: for every text, the confidence of the verdict equals its severity,
    and both lie in the closed interval from 0 to 1. *)
Theorem analyze_confidence_equals_severity_in_unit (text : string) :
  ToxicityAnalyzer.confidence (ToxicityAnalyzer.analyze text)
  = ToxicityAnalyzer.severity (ToxicityAnalyzer.analyze text)
  ∧ (0 <=? ToxicityAnalyzer.severity (ToxicityAnalyzer.analyze text))%float = true
  ∧ (ToxicityAnalyzer.severity (ToxicityAnalyzer.analyze text) <=? 1)%float = true.
Proof.
  destruct (Spec.whitespace_only text) eqn:E.
  - rewrite (analyze_blank _ E). vm_compute. done.
  - destruct (analyze_not_blank _ E) as (Hs & Hc & _).
    split; [exact Hc|]. rewrite Hs.
    unfold ToxicityAnalyzer._analyze_context. rewrite context_product.
    apply adjusted_in_unit.
Qed.

(** ** Facts about the matcher *)

Section MatcherFacts.

Import Re.

Variable icase : bool.

Lemma head_app_Some {A} (l1 l2 : list A) x :
  head l1 = Some x → head (l1 ++ l2) = Some x.
Proof. destruct l1; simpl; [done|]. auto. Qed.

Lemma head_None_nil {A} (l : list A) : head l = None → l = [].
Proof. destruct l; simpl; [done|]. discriminate. Qed.

(** A greedy repetition at the end of a pattern reads the whole run, when
    the run is long enough. *)
Lemma runs_head n g a k pv s :
  head (flat_map (fun ks : nat * state =>
                    if n <=? fst ks then [snd ks] else [])
                 (runs icase g a k pv s)) =
  if n <=? k + run_length icase g a s
  then Some {| grp := g;
               prev := before (run_length icase g a s) pv s;
               rest := drop (run_length icase g a s) s |}
  else None.
Proof.
  revert k pv. induction s as [|x s IH]; intros k pv; simpl.
  - rewrite Nat.add_0_r. by destruct (n <=? k).
  - destruct (atom_ok icase g a x); simpl.
    + rewrite flat_map_app. specialize (IH (S k) (Some x)).
      rewrite Nat.add_succ_r. simpl in IH.
      destruct (n <=? S (k + run_length icase g a s)) eqn:E.
      * by apply head_app_Some.
      * apply head_None_nil in IH. rewrite IH. simpl.
        apply Nat.leb_gt in E.
        replace (n <=? k) with false by (symmetry; apply Nat.leb_gt; lia).
        done.
    + rewrite Nat.add_0_r. by destruct (n <=? k).
Qed.

Lemma match_at_atleast n a pv s :
  match_at icase [AtLeast n a] pv s =
  if n <=? run_length icase None a s
  then Some {| grp := None;
               prev := before (run_length icase None a s) pv s;
               rest := drop (run_length icase None a s) s |}
  else None.
Proof. unfold match_at, start. simpl matches. by rewrite runs_head. Qed.

End MatcherFacts.

(** [re.search(r'(.)\1{2,}', s)] finds a character other than a line feed
    that stands three times in a row. *)
Lemma search_repeated_from pv s :
  Re.search_from false ToxicityAnalyzer.repeated_re pv s
  = Spec.repeated3 Spec.not_newline s.
Proof.
  revert pv. induction s as [|a s IH]; intros pv; [done|].
  cbn [Re.search_from Spec.repeated3]. rewrite IH.
  unfold Re.match_at, Re.start, ToxicityAnalyzer.repeated_re.
  cbn [Re.matches]. unfold Re.step. cbn [Re.rest Re.grp Re.prev Re.atom_ok].
  unfold Spec.not_newline, Spec.LF.
  destruct (Ascii.eqb a "010") eqn:Ea; cbn [negb Re.rest Re.grp Re.prev];
    [done|].
  rewrite runs_head. cbn [plus].
  destruct s as [|b [|c s]]; cbn [Re.run_length Re.atom_ok Re.eqc Spec.twice_more];
    [done | by destruct (Ascii.eqb a b) |].
  destruct (Ascii.eqb a b) eqn:Eb; [|done].
  destruct (Ascii.eqb a c) eqn:Ec; done.
Qed.

Lemma search_repeated s :
  Re.search false ToxicityAnalyzer.repeated_re s
  = Spec.repeated3 Spec.not_newline s.
Proof. apply search_repeated_from. Qed.

(** [repeated3] says what its name says. *)
Lemma repeated3_spec ok s :
  Spec.repeated3 ok s = true ↔
  ∃ pre c post, ok c = true ∧ s = pre +:+ String c (String c (String c post)).
Proof.
  induction s as [|a s IH]; simpl.
  - split; [done|]. intros (pre & c & post & _ & H). by destruct pre.
  - rewrite orb_true_iff, andb_true_iff, IH. split.
    + intros [[Hok Ht] | (pre & c & post & Hok & ->)].
      * destruct s as [|b [|c s]]; simpl in Ht; try done.
        apply andb_true_iff in Ht as [->%Ascii.eqb_eq ->%Ascii.eqb_eq].
        by eexists "", _, _.
      * by exists (String a pre), c, post.
    + intros (pre & c & post & Hok & H). destruct pre as [|x pre].
      * cbn in H. injection H as -> ->. left. split; [done|].
        cbn. by rewrite Ascii.eqb_refl.
      * cbn in H. injection H as -> ->. right. by exists pre, c, post.
Qed.

Lemma float_neq (x y : float) :
  (x =? y)%float = false → (y =? y)%float = true → x ≠ y.
Proof. intros H1 H2 ->. congruence. Qed.

(** C2, as the code has it: for every text of ASCII characters that is
    neither empty nor made of whitespace only, the severity is
    [min(maxSeverity * contextMultiplier, 1.0)], with the maximum over the
    matched categories and the product of the factors of the three tests,
    where the repeated character is any character other than a line
    feed. *)
Theorem analyze_severity_formula (text : string) :
  Py.isascii text = true →
  Spec.whitespace_only text = false →
  ToxicityAnalyzer.severity (ToxicityAnalyzer.analyze text)
  = Spec.adjustedSeverity Spec.not_newline text.
Proof.
  intros _ H. destruct (analyze_not_blank _ H) as (-> & _).
  unfold ToxicityAnalyzer._analyze_context.
  rewrite context_product, search_repeated. reflexivity.
Qed.

Lemma analyze_severity_formula_witness :
  Py.isascii "stupidddd!!" = true
  ∧ Spec.whitespace_only "stupidddd!!" = false
  ∧ ToxicityAnalyzer.severity (ToxicityAnalyzer.analyze "stupidddd!!")
    = Spec.adjustedSeverity Spec.not_newline "stupidddd!!".
Proof.
  split; [reflexivity|]. split; [reflexivity|].
  apply (analyze_severity_formula "stupidddd!!"); reflexivity.
Defined.

(** C2, as the claim words it (any character repeated three times raises
    the severity), fails on a text that ends in three line feeds: the code
    reports 0.7 there and the claimed formula gives 0.7 * 1.2. *)
Lemma analyze_severity_any_char_fails :
  Py.isascii Sample.stupid_and_blank_lines = true
  ∧ Spec.whitespace_only Sample.stupid_and_blank_lines = false
  ∧ Spec.repeated3 Spec.any_char Sample.stupid_and_blank_lines = true
  ∧ ToxicityAnalyzer.severity (ToxicityAnalyzer.analyze Sample.stupid_and_blank_lines)
    = 0.7%float
  ∧ ToxicityAnalyzer.severity (ToxicityAnalyzer.analyze Sample.stupid_and_blank_lines)
    ≠ Spec.adjustedSeverity Spec.any_char Sample.stupid_and_blank_lines.
Proof.
  split; [reflexivity|]. split; [reflexivity|]. split; [reflexivity|].
  split; [vm_compute; reflexivity|].
  apply float_neq; vm_compute; reflexivity.
Qed.

(** C1: on the empty text and on a text of three spaces [analyze] returns
    the all-clear verdict, and that dictionary has no [originalText] key. *)
Theorem analyze_blank_lacks_originalText :
  ToxicityAnalyzer.analyze "" =
    {| ToxicityAnalyzer.isToxic := false;
       ToxicityAnalyzer.confidence := 0.0;
       ToxicityAnalyzer.severity := 0.0;
       ToxicityAnalyzer.keywords := ∅;
       ToxicityAnalyzer.categories := ∅;
       ToxicityAnalyzer.suggestions := [];
       ToxicityAnalyzer.originalText := None |}
  ∧ ToxicityAnalyzer.originalText (ToxicityAnalyzer.analyze "   ") = None
  ∧ ToxicityAnalyzer.originalText (ToxicityAnalyzer.analyze "ok") = Some "ok".
Proof. split; [|split]; reflexivity. Qed.

(** C8, as the code has it: on [YOU ARE STUPID] only the insults category
    matches, only the all-caps test holds, and confidence and severity are
    both the binary64 product of 0.7 and 1.3, which is 0.9099999999999999,
    the double just below 0.91; the verdict is toxic. *)
Theorem analyze_you_are_stupid :
  let v := ToxicityAnalyzer.analyze "YOU ARE STUPID" in
  ToxicityAnalyzer.categories v = {["insults"]}
  ∧ Spec.maxSeverity "YOU ARE STUPID" = 0.7%float
  ∧ Spec.repeated3 Spec.not_newline "YOU ARE STUPID" = false
  ∧ Spec.shouting "YOU ARE STUPID" = true
  ∧ Spec.exclaiming "YOU ARE STUPID" = false
  ∧ ToxicityAnalyzer._analyze_context "YOU ARE STUPID" = 1.3%float
  ∧ ToxicityAnalyzer.confidence v = ToxicityAnalyzer.severity v
  ∧ ToxicityAnalyzer.severity v = Py.min (0.7 * 1.3)%float 1.0
  ∧ ToxicityAnalyzer.severity v = 0.9099999999999999%float
  ∧ (ToxicityAnalyzer.severity v <? 0.91)%float = true
  ∧ ToxicityAnalyzer.isToxic v = true.
Proof. cbv zeta. repeat split; vm_compute; reflexivity. Qed.

(** C8, as the claim words it, fails: the value returned is not the
    double 0.91. *)
Lemma analyze_you_are_stupid_not_0_91 :
  ¬ (ToxicityAnalyzer.confidence (ToxicityAnalyzer.analyze "YOU ARE STUPID") = 0.91%float
     ∧ ToxicityAnalyzer.severity (ToxicityAnalyzer.analyze "YOU ARE STUPID") = 0.91%float
     ∧ ToxicityAnalyzer.isToxic (ToxicityAnalyzer.analyze "YOU ARE STUPID") = true).
Proof.
  intros (_ & H & _). revert H. apply float_neq; vm_compute; reflexivity.
Qed.

(** C10: [disgusting] is judged toxic and gets no suggestion: the only
    category it matches is [offensive], and a list of categories drawn from
    [profanity] and [offensive] maps to no advisory string. *)
Theorem toxic_without_suggestions :
  (∃ text,
     ToxicityAnalyzer.isToxic (ToxicityAnalyzer.analyze text) = true
     ∧ ToxicityAnalyzer.suggestions (ToxicityAnalyzer.analyze text) = [])
  ∧ ToxicityAnalyzer.isToxic (ToxicityAnalyzer.analyze "disgusting") = true
  ∧ ToxicityAnalyzer.suggestions (ToxicityAnalyzer.analyze "disgusting") = []
  ∧ ToxicityAnalyzer.categories (ToxicityAnalyzer.analyze "disgusting") = {["offensive"]}
  ∧ (∀ cats : list string,
       (∀ c, c ∈ cats → c = "profanity" ∨ c = "offensive") →
       ToxicityAnalyzer._generate_suggestions cats = []).
Proof.
  split; [exists "disgusting"; split; vm_compute; reflexivity|].
  split; [vm_compute; reflexivity|]. split; [vm_compute; reflexivity|].
  split; [vm_compute; reflexivity|].
  intros cats H. unfold ToxicityAnalyzer._generate_suggestions, ToxicityAnalyzer.mem.
  repeat case_bool_decide;
    repeat match goal with
           | Hin : _ ∈ cats |- _ => destruct (H _ Hin); [discriminate | discriminate]
           end.
  reflexivity.
Qed.

(** ** The rephrasing result *)

(** C3: on an empty or whitespace-only text the dictionary [rephrase]
    returns has no [keywords] key, whatever keywords were supplied; on every
    other text of ASCII characters the key holds the supplied list, or the
    empty list. *)
Theorem rephrase_blank_lacks_keywords :
  TextRephraser.keywords (TextRephraser.rephrase "" (Some ["stupid"])) = None
  ∧ TextRephraser.keywords (TextRephraser.rephrase "   " (Some ["stupid"])) = None
  ∧ TextRephraser.keywords (TextRephraser.rephrase "   " None) = None
  ∧ (∀ text kw,
       Py.isascii text = true →
       Spec.whitespace_only text = false →
       TextRephraser.keywords (TextRephraser.rephrase text kw)
       = Some (match kw with Some l => l | None => [] end)).
Proof.
  split; [reflexivity|]. split; [reflexivity|]. split; [reflexivity|].
  intros text kw _ H. unfold TextRephraser.rephrase. rewrite blank_spec, H.
  reflexivity.
Qed.

(** ** Facts about [re.search] and [re.sub] *)

Section SubFacts.

Import Re.

Variable icase : bool.
Variable p : regex.
Variable repl : string.

(** Where the pattern matches nowhere, substitution changes nothing. *)
Lemma sub_go_silent pv s :
  search_from icase p pv s = false → sub_go icase p repl 0 pv s = s.
Proof.
  revert pv. induction s as [|x s IH]; intros pv H; [done|].
  cbn [search_from] in H. cbn [sub_go].
  destruct (match_at icase p pv (String x s)); [done|].
  by rewrite IH.
Qed.

Lemma sub_silent s : search icase p s = false → sub icase p repl s = s.
Proof. apply sub_go_silent. Qed.

(** Dropping the rest of a match. *)
Lemma sub_go_skip k pv s :
  sub_go icase p repl k pv s = sub_go icase p repl 0 (before k pv s) (drop k s).
Proof.
  revert pv s. induction k as [|k IH]; intros pv s; [by destruct s|].
  destruct s as [|x s]; [done|]. cbn [sub_go before drop]. apply IH.
Qed.

Lemma length_drop n s : String.length (drop n s) = String.length s - n.
Proof.
  revert s. induction n as [|n IH]; intros [|x s]; cbn [drop String.length];
    done.
Qed.

(** One step of [re.sub] at a position where the match reads [n]
    characters, [n] at least 1. *)
Lemma sub_go_match pv s m n :
  match_at icase p pv s = Some m →
  rest m = drop (S n) s → S n ≤ String.length s →
  sub_go icase p repl 0 pv s
  = repl +:+ sub_go icase p repl 0 (before (S n) pv s) (drop (S n) s).
Proof.
  intros Hm Hr Hn. destruct s as [|x s]; [cbn in Hn; lia|].
  cbn [sub_go]. rewrite Hm, Hr, length_drop.
  replace (String.length (String x s) - (String.length (String x s) - S n))
    with (S n) by lia.
  by rewrite sub_go_skip.
Qed.

Lemma sub_go_no_match pv x s :
  match_at icase p pv (String x s) = None →
  sub_go icase p repl 0 pv (String x s)
  = String x (sub_go icase p repl 0 (Some x) s).
Proof. intros H. cbn [sub_go]. by rewrite H. Qed.

End SubFacts.

(** ** Every match of a pattern of the two modules reads a character *)

Section Consumption.

Import Re.

Variable icase : bool.

Lemma step_length a st st' :
  step icase a st = Some st' →
  S (String.length (rest st')) = String.length (rest st).
Proof.
  unfold step. destruct (rest st) as [|x s]; [done|].
  destruct (atom_ok icase (grp st) a x); [|done]. by intros [= <-].
Qed.

Lemma runs_length g a k0 pv s k st' :
  (k, st') ∈ runs icase g a k0 pv s →
  String.length (rest st') + k = String.length s + k0.
Proof.
  revert k0 pv. induction s as [|x s IH]; intros k0 pv; cbn [runs].
  - cbn. intros [=]%list_elem_of_singleton. by subst.
  - intros [H|H]%elem_of_app.
    + destruct (atom_ok icase g a x); [|by apply elem_of_nil in H].
      apply IH in H. cbn [String.length]. lia.
    + apply list_elem_of_singleton in H as [= -> ->]. done.
Qed.

Lemma eat_length w st st' :
  eat icase w st = Some st' → String.length (rest st') ≤ String.length (rest st).
Proof.
  revert st. induction w as [|c w IH]; intros st; cbn [eat].
  - by intros [= <-].
  - destruct (step icase (AChr c) st) as [st1|] eqn:E; [|done].
    intros H%IH. apply step_length in E. lia.
Qed.

Lemma matches_consume p st m :
  m ∈ matches icase p st →
  String.length (rest m) + min_len p ≤ String.length (rest st).
Proof.
  revert st. induction p as [|t p IH]; intros st.
  - cbn. intros ->%list_elem_of_singleton. lia.
  - destruct t as [a|a|n a|a|ws| |]; cbn [matches min_len min_chars].
    + destruct (step icase a st) as [st1|] eqn:E; [|by intros ?%elem_of_nil].
      intros H%IH. apply step_length in E. lia.
    + intros [H|H]%elem_of_app.
      * destruct (step icase a st) as [st1|] eqn:E; [|by apply elem_of_nil in H].
        apply IH in H. apply step_length in E. lia.
      * apply IH in H. lia.
    + intros H%list_elem_of_In. apply in_flat_map in H as ([k st1] & H1 & H2).
      apply list_elem_of_In, runs_length in H1. cbn [fst snd] in H2.
      destruct (n <=? k) eqn:E; [|done].
      apply Nat.leb_le in E. apply list_elem_of_In, IH in H2. lia.
    + destruct (step icase a st) as [st1|] eqn:E; [|by intros ?%elem_of_nil].
      intros H%IH. apply step_length in E. cbn [rest] in H. lia.
    + intros H%list_elem_of_In. apply in_flat_map in H as (w & _ & H2).
      destruct (eat icase w st) as [st1|] eqn:E; [|done].
      apply list_elem_of_In, IH in H2. apply eat_length in E. lia.
    + destruct (boundary st); [|by intros ?%elem_of_nil].
      intros H%IH. lia.
    + destruct (prev st); [by intros ?%elem_of_nil|].
      intros H%IH. lia.
Qed.

(** A pattern that needs a character never matches the empty string, so
    [sub_go] never meets an empty match for it. *)
Lemma match_at_reads p pv s m :
  1 ≤ min_len p → match_at icase p pv s = Some m →
  String.length (rest m) < String.length s.
Proof.
  intros Hp Hm. unfold match_at in Hm.
  assert (Hin : m ∈ matches icase p (start pv s)).
  { destruct (matches icase p (start pv s)); [done|].
    injection Hm as ->. left. }
  apply matches_consume in Hin. cbn [start rest] in Hin. lia.
Qed.

End Consumption.

Lemma source_patterns_read :
  forallb (λ r, 1 <=? Re.min_len (TextRephraser.pattern r)) TextRephraser.phrase_rules
  = true
  ∧ Re.min_len TextRephraser.exclamations_re = 2
  ∧ Re.min_len ToxicityAnalyzer.repeated_re = 3.
Proof. repeat split; vm_compute; reflexivity. Qed.

(** ** [re.sub] replaces every occurrence *)

Section Occurrences.

Import Re.

Variable icase : bool.

Lemma drop_drop a b s : drop b (drop a s) = drop (a + b) s.
Proof.
  revert s. induction a as [|a IH]; intros s; [done|].
  destruct s as [|x s]; [by destruct b|]. apply IH.
Qed.

Lemma before_before a b pv s :
  before b (before a pv s) (drop a s) = before (a + b) pv s.
Proof.
  revert pv s. induction a as [|a IH]; intros pv s; [done|].
  destruct s as [|x s]; [by destruct b|]. apply IH.
Qed.

Lemma ahead_refl st : Aux.ahead 0 st st.
Proof. split; [lia|]. by destruct (rest st). Qed.

Lemma ahead_trans a b st m1 m2 :
  Aux.ahead a st m1 → Aux.ahead b m1 m2 → Aux.ahead (a + b) st m2.
Proof.
  intros (Ha & Hr1 & Hp1) (Hb & Hr2 & Hp2).
  rewrite Hr1, length_drop in Hb. split; [lia|].
  rewrite Hr2, Hp2, Hr1, Hp1. by rewrite drop_drop, before_before.
Qed.

Lemma step_ahead a st st' : step icase a st = Some st' → Aux.ahead 1 st st'.
Proof.
  unfold step, Aux.ahead. destruct (rest st) as [|x s]; [done|].
  destruct (atom_ok icase (grp st) a x); [|done]. intros [= <-].
  cbn [rest prev String.length drop before]. split; [lia|done].
Qed.

Lemma runs_ahead g a k0 pv s k st' :
  (k, st') ∈ runs icase g a k0 pv s →
  ∃ j, Aux.ahead j {| grp := g; prev := pv; rest := s |} st'.
Proof.
  revert k0 pv. induction s as [|x s IH]; intros k0 pv; cbn [runs].
  - cbn. intros [= _ ->]%list_elem_of_singleton. exists 0. apply ahead_refl.
  - intros [H|H]%elem_of_app.
    + destruct (atom_ok icase g a x); [|by apply elem_of_nil in H].
      apply IH in H as (j & Hj & Hr & Hp). exists (S j).
      unfold Aux.ahead. cbn [rest prev String.length drop before] in *.
      split; [lia|done].
    + apply list_elem_of_singleton in H as [= _ ->]. exists 0. apply ahead_refl.
Qed.

Lemma eat_ahead w st st' : eat icase w st = Some st' → ∃ j, Aux.ahead j st st'.
Proof.
  revert st. induction w as [|c w IH]; intros st; cbn [eat].
  - intros [= <-]. exists 0. apply ahead_refl.
  - destruct (step icase (AChr c) st) as [st1|] eqn:E; [|done].
    intros [j H]%IH. exists (1 + j).
    eapply ahead_trans; [by eapply step_ahead|done].
Qed.

(** A match ends at a position of the text it started in. *)
Lemma matches_ahead p st m : m ∈ matches icase p st → ∃ k, Aux.ahead k st m.
Proof.
  revert st. induction p as [|t p IH]; intros st.
  - cbn. intros ->%list_elem_of_singleton. exists 0. apply ahead_refl.
  - destruct t as [a|a|n a|a|ws| |]; cbn [matches].
    + destruct (step icase a st) as [st1|] eqn:E; [|by intros ?%elem_of_nil].
      intros [k H]%IH. exists (1 + k).
      eapply ahead_trans; [by eapply step_ahead|done].
    + intros [H|H]%elem_of_app; [|by apply IH].
      destruct (step icase a st) as [st1|] eqn:E; [|by apply elem_of_nil in H].
      apply IH in H as [k H]. exists (1 + k).
      eapply ahead_trans; [by eapply step_ahead|done].
    + intros H%list_elem_of_In. apply in_flat_map in H as ([k st1] & H1 & H2).
      apply list_elem_of_In, runs_ahead in H1 as [j H1]. cbn [fst snd] in H2.
      destruct (n <=? k); [|done]. apply list_elem_of_In, IH in H2 as [i H2].
      exists (j + i). eapply ahead_trans; [|done]. by destruct st.
    + destruct (step icase a st) as [st1|] eqn:E; [|by intros ?%elem_of_nil].
      intros [k H]%IH. exists (1 + k).
      eapply ahead_trans; [by eapply step_ahead|]. exact H.
    + intros H%list_elem_of_In. apply in_flat_map in H as (w & _ & H2).
      destruct (eat icase w st) as [st1|] eqn:E; [|done].
      apply list_elem_of_In, IH in H2 as [i H2]. apply eat_ahead in E as [j E].
      exists (j + i). by eapply ahead_trans.
    + destruct (boundary st); [|by intros ?%elem_of_nil]. apply IH.
    + destruct (prev st); [by intros ?%elem_of_nil|]. apply IH.
Qed.

Lemma match_at_ahead p pv s m :
  match_at icase p pv s = Some m →
  rest m = drop (String.length s - String.length (rest m)) s
  ∧ prev m = before (String.length s - String.length (rest m)) pv s.
Proof.
  unfold match_at. intros Hm.
  assert (Hin : m ∈ matches icase p (start pv s)).
  { destruct (matches icase p (start pv s)); [done|]. injection Hm as ->. left. }
  apply matches_ahead in Hin as (k & Hk & Hr & Hp). cbn [start rest prev] in *.
  assert (Hl : String.length (rest m) = String.length s - k)
    by (by rewrite Hr, length_drop).
  replace (String.length s - String.length (rest m)) with k by lia. done.
Qed.

End Occurrences.

(** [re.sub] with the pattern and the replacement of a rule replaces every
    occurrence of the pattern, from left to right. *)
Lemma sub_go_replace_from r n pv s :
  String.length s ≤ n →
  Re.sub_go (TextRephraser.flags r) (TextRephraser.pattern r)
    (TextRephraser.replacement r) 0 pv s
  = Spec.replace_from n r pv s.
Proof.
  revert pv s. induction n as [|n IH]; intros pv [|x s] Hn; try done.
  { cbn in Hn. lia. }
  cbn [Re.sub_go Spec.replace_from]. unfold Spec.occurrence.
  destruct (Re.match_at _ _ pv (String x s)) as [m|] eqn:Hm.
  - destruct (match_at_ahead _ _ _ _ _ Hm) as [Hr Hp].
    destruct (String.length (String x s) - String.length (Re.rest m)) as [|k] eqn:Ek.
    + replace (String.length (Re.rest m) <? String.length (String x s)) with false
        by (symmetry; apply Nat.ltb_ge; lia).
      rewrite IH by (cbn in Hn; lia). done.
    + replace (String.length (Re.rest m) <? String.length (String x s)) with true
        by (symmetry; apply Nat.ltb_lt; lia).
      rewrite sub_go_skip. cbn [Re.drop Re.before] in Hr, Hp. rewrite <- Hr, <- Hp.
      rewrite IH; [done|]. cbn [String.length] in *. lia.
  - rewrite IH by (cbn in Hn; lia). done.
Qed.

Lemma sub_replace_all r s :
  Re.sub (TextRephraser.flags r) (TextRephraser.pattern r)
    (TextRephraser.replacement r) s
  = Spec.replace_all r s.
Proof. by apply sub_go_replace_from. Qed.

(** ** The loop over the phrase rules *)

Section Rules.

Import TextRephraser.

Lemma replace_all_silent r s : Spec.fires r s = false → Spec.replace_all r s = s.
Proof. intros H. rewrite <- sub_replace_all. by apply sub_silent. Qed.

Lemma apply_rule_fst st r :
  fst (apply_rule st r) = Spec.replace_all r (fst st).
Proof.
  unfold apply_rule. destruct (Re.search _ _ _) eqn:E; cbn [fst].
  - apply sub_replace_all.
  - symmetry. by apply replace_all_silent.
Qed.

Lemma apply_rule_snd st r :
  snd (apply_rule st r) = snd st || Spec.fires r (fst st).
Proof.
  unfold apply_rule, Spec.fires. destruct (Re.search _ _ _); simpl.
  - by rewrite orb_true_r.
  - by rewrite orb_false_r.
Qed.

(** The text after the loop is the composition of the rules' replacements
    in list order, and the flag tells whether some rule matched the text it
    was applied to. *)
Lemma fold_rules_fst rules st :
  fst (fold_left apply_rule rules st) = Spec.compose_rules rules (fst st).
Proof.
  revert st. induction rules as [|r rules IH]; intros st; [done|].
  cbn [fold_left]. rewrite IH, apply_rule_fst. done.
Qed.

Lemma fold_rules_snd rules st :
  snd (fold_left apply_rule rules st)
  = snd st || Spec.some_rule_fires rules (fst st).
Proof.
  revert st. induction rules as [|r rules IH]; intros st.
  - cbn. by rewrite orb_false_r.
  - cbn [fold_left]. rewrite IH, apply_rule_snd, apply_rule_fst.
    unfold Spec.some_rule_fires. cbn [Spec.turns existsb fst snd].
    by rewrite orb_assoc.
Qed.

Lemma apply_rules_spec rules text :
  apply_rules rules text
  = (Spec.compose_rules rules text, Spec.some_rule_fires rules text).
Proof.
  unfold apply_rules. apply injective_projections.
  - by rewrite fold_rules_fst.
  - by rewrite fold_rules_snd.
Qed.

(** Where no rule fires, the loop leaves the text as it is. *)
Lemma compose_rules_silent rules text :
  Spec.some_rule_fires rules text = false → Spec.compose_rules rules text = text.
Proof.
  revert text. induction rules as [|r rules IH]; intros text H; [done|].
  unfold Spec.some_rule_fires in H. cbn [Spec.turns existsb fst snd] in H.
  apply orb_false_iff in H as [H1 H2].
  cbn [Spec.compose_rules fold_left]. rewrite (replace_all_silent _ _ H1).
  apply IH. by rewrite (replace_all_silent _ _ H1) in H2.
Qed.

End Rules.

(** C5: on a text of ASCII characters that is not blank, when some rule
    matches the text it is applied to, the result is flagged as modified
    and its text is the composition, in list order, of the rules, each
    replacing every occurrence of its pattern in the output of the rules
    before it; [rephrase("you are stupid")] is
    [I disagree with your approach], modified, with a positive confidence;
    and in [stupid is as stupid does] both occurrences of the pattern of
    one rule are replaced, after which no rule matches any more. *)
Theorem rephrase_applies_rules_in_order :
  (∀ text kw,
     Py.isascii text = true →
     Spec.whitespace_only text = false →
     Spec.some_rule_fires TextRephraser.phrase_rules text = true →
     TextRephraser.rephrased (TextRephraser.rephrase text kw)
       = Spec.compose_rules TextRephraser.phrase_rules text
     ∧ TextRephraser.modified (TextRephraser.rephrase text kw) = true)
  ∧ (∀ rules r text,
       Spec.compose_rules (rules ++ [r]) text
       = Spec.replace_all r (Spec.compose_rules rules text))
  ∧ TextRephraser.rephrased (TextRephraser.rephrase "you are stupid" None)
    = "I disagree with your approach"
  ∧ TextRephraser.modified (TextRephraser.rephrase "you are stupid" None) = true
  ∧ (0 <? TextRephraser.confidence (TextRephraser.rephrase "you are stupid" None))%float
    = true
  ∧ TextRephraser.rephrased (TextRephraser.rephrase Sample.proverb None)
    = "unclear is as unclear does"
  ∧ TextRephraser.modified (TextRephraser.rephrase Sample.proverb None) = true
  ∧ Spec.some_rule_fires TextRephraser.phrase_rules "unclear is as unclear does"
    = false.
Proof.
  split; [|split; [|repeat split; vm_compute; reflexivity]].
  - intros text kw _ Hb Hf. unfold TextRephraser.rephrase.
    rewrite blank_spec, Hb, apply_rules_spec, Hf. done.
  - intros rules r text. unfold Spec.compose_rules. by rewrite fold_left_app.
Qed.

Lemma rephrase_applies_rules_in_order_witness :
  Py.isascii "You're stupid, a dumb idea, a DUMB plan, dumb!" = true
  ∧ TextRephraser.rephrased
      (TextRephraser.rephrase "You're stupid, a dumb idea, a DUMB plan, dumb!"
         (Some ["stupid"]))
    = "I see things differently, a not well thought out idea, a not well thought out plan, not well thought out!"
  ∧ TextRephraser.modified
      (TextRephraser.rephrase "You're stupid, a dumb idea, a DUMB plan, dumb!"
         (Some ["stupid"]))
    = true.
Proof.
  split; [reflexivity|].
  destruct (proj1 rephrase_applies_rules_in_order
              "You're stupid, a dumb idea, a DUMB plan, dumb!" (Some ["stupid"]))
    as [H1 H2]; [reflexivity | reflexivity | vm_compute; reflexivity |].
  split; [rewrite H1; vm_compute; reflexivity | exact H2].
Defined.

(** ** The generic softening transform *)

Section Softening.

Import Re TextRephraser.

Lemma run_length_le icase g a s : run_length icase g a s ≤ String.length s.
Proof.
  induction s as [|x s IH]; cbn [run_length String.length]; [done|].
  destruct (atom_ok icase g a x); lia.
Qed.

#[local] Abbreviation bangs := (run_length false None (AChr "!")).

Lemma append_empty_r (s : string) : s +:+ "" = s.
Proof.
  induction s as [|c s IH]; [done|].
  change (String c (s +:+ "") = String c s). by rewrite IH.
Qed.

(** The spec's collapse reads a whole run of exclamation marks, emits what
    the run is worth and goes on after it. *)
Lemma collapse_run n s :
  Spec.collapse_go n s
  = Spec.flush (n + bangs s) +:+ Spec.collapse_go 0 (drop (bangs s) s).
Proof.
  revert n. induction s as [|x s IH]; intros n.
  - cbn. by rewrite Nat.add_0_r, append_empty_r.
  - cbn [Spec.collapse_go run_length atom_ok eqc].
    rewrite (Ascii.eqb_sym x "!"). destruct (Ascii.eqb "!" x) eqn:Ex.
    + rewrite IH, Nat.add_succ_r. reflexivity.
    + rewrite Nat.add_0_r. cbn [drop Spec.collapse_go].
      rewrite (Ascii.eqb_sym x "!"), Ex. reflexivity.
Qed.

Lemma sub_exclamations_go k s pv :
  String.length s ≤ k →
  sub_go false exclamations_re "." 0 pv s = Spec.collapse_go 0 s.
Proof.
  revert s pv. induction k as [|k IH]; intros [|x s] pv Hlen; try done.
  { cbn in Hlen. lia. }
  cbn [String.length] in Hlen.
  pose proof (match_at_atleast false 2 (AChr "!") pv (String x s)) as Hm.
  fold exclamations_re in Hm. cbn [run_length atom_ok eqc] in Hm.
  cbn [Spec.collapse_go]. rewrite (Ascii.eqb_sym x "!").
  destruct (Ascii.eqb "!" x) eqn:Ex.
  - apply Ascii.eqb_eq in Ex as <-. rewrite (collapse_run 1 s).
    pose proof (run_length_le false None (AChr "!") s) as Hle.
    destruct (bangs s) as [|j] eqn:Ej.
    + change (2 <=? 1) with false in Hm.
      rewrite (sub_go_no_match _ _ _ _ _ _ Hm), IH by lia. reflexivity.
    + change (2 <=? S (S j)) with true in Hm.
      rewrite (sub_go_match _ _ _ _ _ _ (S j) Hm) by (cbn [String.length]; done || lia).
      rewrite IH by (rewrite length_drop; cbn [String.length]; lia).
      reflexivity.
  - change (2 <=? 0) with false in Hm.
    rewrite (sub_go_no_match _ _ _ _ _ _ Hm), IH by lia. reflexivity.
Qed.

(** [re.sub(r'!{2,}', '.', s)] collapses the runs of two or more
    exclamation marks into one period each. *)
Lemma sub_exclamations s :
  sub false exclamations_re "." s = Spec.collapse_exclamations s.
Proof. by apply (sub_exclamations_go (String.length s)). Qed.

Lemma capitalize_sentence_case s : Py.capitalize s = Spec.sentence_case s.
Proof. by destruct s. Qed.

(** Reading a lower-case literal without regard to case. *)
Lemma eat_prefix w g pv s :
  Py.lower w = w →
  eat true w {| grp := g; prev := pv; rest := s |} =
  if String.prefix w (Py.lower s)
  then Some {| grp := g; prev := before (String.length w) pv s;
               rest := drop (String.length w) s |}
  else None.
Proof.
  revert pv s. induction w as [|c w IH]; intros pv s Hw.
  - cbn. by destruct s.
  - injection Hw as Hc Hw. destruct s as [|x s]; [done|].
    cbn [eat step rest grp atom_ok eqc Py.lower Py.map String.prefix
         String.length before drop].
    rewrite Hc. destruct (ascii_dec c (Py.lower_c x)) as [->|Hne].
    + rewrite Ascii.eqb_refl. by apply IH.
    + by apply Ascii.eqb_neq in Hne as ->.
Qed.

Lemma before_word w pv s :
  String.prefix w (Py.lower s) = true →
  Py.all Py.isword w = true →
  (w = "" → isword_opt pv = true) →
  isword_opt (before (String.length w) pv s) = true.
Proof.
  revert pv s. induction w as [|c w IH]; intros pv s Hp Hw Hpv.
  - by apply Hpv.
  - destruct s as [|x s]; [done|].
    cbn [Py.lower Py.map String.prefix] in Hp.
    destruct (ascii_dec c (Py.lower_c x)) as [->|]; [|done].
    cbn [Py.all] in Hw. apply andb_true_iff in Hw as [Hx Hw].
    cbn [String.length before]. apply IH; [done..|].
    intros _. cbn. by rewrite <- isword_lower_c.
Qed.

Lemma next_drop n s : next (drop n s) = String.get n s.
Proof.
  revert s. induction n as [|n IH]; intros [|x s]; cbn; done.
Qed.

(** The test [re.match(r'^(you|this|that)\b', s, re.IGNORECASE)] holds when
    the text begins with one of the three words at a word boundary. *)
Lemma match_strong_start s :
  match_ true strong_start_re s = Spec.strong_start s.
Proof.
  unfold match_, match_at, start, strong_start_re, Spec.strong_start,
    Spec.begins_with_word, Spec.char_at.
  cbn [matches prev flat_map].
  rewrite !eat_prefix by reflexivity. unfold boundary.
  destruct (String.prefix "you" (Py.lower s)) eqn:E1;
    destruct (String.prefix "this" (Py.lower s)) eqn:E2;
    destruct (String.prefix "that" (Py.lower s)) eqn:E3;
    cbn [prev rest];
    rewrite ?next_drop, ?(before_word _ _ _ E1), ?(before_word _ _ _ E2),
      ?(before_word _ _ _ E3) by done;
    repeat match goal with
           | |- context [isword_opt (get ?n s)] => destruct (isword_opt (get n s))
           end; reflexivity.
Qed.

Lemma hedge_lower_first s : "Perhaps " +:+ lower_first s = Spec.hedge s.
Proof. by destruct s. Qed.

(** The code's softening is the specification's. *)
Lemma general_softening_spec text : _general_softening text = Spec.soften text.
Proof.
  unfold _general_softening, Spec.soften, Py.len.
  rewrite sub_exclamations, capitalize_sentence_case.
  by rewrite match_strong_start, hedge_lower_first.
Qed.

(** Softening leaves a text of whitespace as it is. *)
Lemma soften_blank text : Spec.whitespace_only text = true → Spec.soften text = text.
Proof.
  unfold Spec.whitespace_only. intros H.
  assert (Hc : Spec.collapse_exclamations text = text).
  { unfold Spec.collapse_exclamations.
    induction text as [|x s IH]; [done|].
    cbn [Py.all] in H. apply andb_true_iff in H as [Hx Hs].
    destruct (isspace_not_cased _ Hx) as (_ & _ & _ & Hb).
    cbn [Spec.collapse_go]. rewrite Hb, (IH Hs). reflexivity. }
  assert (Hu : Py.isupper text = false).
  { unfold Py.isupper. replace (Py.any Py.isupper_c text) with false; [done|].
    induction text as [|x s IH]; [done|].
    cbn [Py.all] in H. apply andb_true_iff in H as [Hx Hs].
    destruct (isspace_not_cased _ Hx) as (Hup & _).
    cbn [Py.any]. rewrite Hup. apply IH; [done|].
    unfold Spec.collapse_exclamations in Hc. cbn [Spec.collapse_go] in Hc.
    destruct (isspace_not_cased _ Hx) as (_ & _ & _ & Hb). rewrite Hb in Hc.
    by injection Hc. }
  assert (Hs : Spec.strong_start text = false).
  { unfold Spec.strong_start, Spec.begins_with_word.
    destruct text as [|x s]; [done|].
    cbn [Py.all] in H. apply andb_true_iff in H as [Hx _].
    destruct (isspace_not_cased _ Hx) as (_ & _ & Hw & _).
    rewrite <- isword_lower_c in Hw.
    cbn [Py.lower Py.map String.prefix].
    repeat match goal with
           | |- context [ascii_dec ?c (Py.lower_c x)] =>
               destruct (ascii_dec c (Py.lower_c x)) as [E|];
               [rewrite <- E in Hw; discriminate|]
           end.
    reflexivity. }
  unfold Spec.soften. rewrite Hc, Hu, andb_false_r, Hs. reflexivity.
Qed.

End Softening.

(** C6: on a text of ASCII characters, when no phrase rule fires, a
    non-empty keyword list makes [rephrase] return the softened original text (exclamation runs
    collapsed, sentence case for a long upper-case text, the hedge
    [Perhaps] before a leading you, this or that), flagged as modified
    exactly when softening changed the text; without keywords, or with an
    empty list, the text comes back unchanged and unflagged. *)
Theorem rephrase_softening (text : string) :
  Py.isascii text = true →
  Spec.some_rule_fires TextRephraser.phrase_rules text = false →
  (∀ k ks,
     TextRephraser.rephrased (TextRephraser.rephrase text (Some (k :: ks)))
       = Spec.soften text
     ∧ TextRephraser.modified (TextRephraser.rephrase text (Some (k :: ks)))
       = negb (String.eqb (Spec.soften text) text))
  ∧ (∀ kw, kw = None ∨ kw = Some [] →
       TextRephraser.rephrased (TextRephraser.rephrase text kw) = text
       ∧ TextRephraser.modified (TextRephraser.rephrase text kw) = false).
Proof.
  intros _ Hf. unfold TextRephraser.rephrase. rewrite blank_spec.
  destruct (Spec.whitespace_only text) eqn:Hb.
  - split.
    + intros k ks. cbn. by rewrite (soften_blank _ Hb), String.eqb_refl.
    + by intros kw _.
  - rewrite apply_rules_spec, Hf, (compose_rules_silent _ _ Hf). split.
    + intros k ks. cbn. by rewrite general_softening_spec.
    + by intros kw [-> | ->].
Qed.

Lemma rephrase_softening_witness :
  Py.isascii "THIS IS BAD!!! REALLY" = true
  ∧ TextRephraser.rephrased
      (TextRephraser.rephrase "THIS IS BAD!!! REALLY" (Some ["bad"]))
    = "Perhaps this is bad. really"
  ∧ TextRephraser.modified
      (TextRephraser.rephrase "THIS IS BAD!!! REALLY" (Some ["bad"])) = true
  ∧ TextRephraser.rephrased (TextRephraser.rephrase "THIS IS BAD!!! REALLY" None)
    = "THIS IS BAD!!! REALLY".
Proof.
  split; [reflexivity|].
  destruct (rephrase_softening "THIS IS BAD!!! REALLY") as [H1 H2];
    [reflexivity | vm_compute; reflexivity |].
  destruct (H1 "bad" []) as [H1a H1b]. destruct (H2 None) as [H2a _]; [by left|].
  rewrite H1a, H1b, H2a. repeat split; vm_compute; reflexivity.
Defined.

(** ** The change confidence *)

Section Confidence.

Import TextRephraser.

(** The size of a set built from a list is the number of distinct elements
    of the list. *)
Lemma size_list_to_set_distinct (l : list string) :
  size (list_to_set l : gset string) = length (remove_dups l).
Proof.
  rewrite <- (size_list_to_set (C := gset string) (remove_dups l))
    by apply NoDup_remove_dups.
  f_equal. apply set_eq. intros x.
  by rewrite !elem_of_list_to_set, elem_of_remove_dups.
Qed.

Lemma size_difference_distinct (l l' : list string) :
  size ((list_to_set l : gset string) ∖ list_to_set l')
  = length (filter (λ w, w ∉ remove_dups l') (remove_dups l)).
Proof.
  rewrite <- (size_list_to_set (C := gset string)
                (filter (λ w, w ∉ remove_dups l') (remove_dups l)))
    by (apply NoDup_filter, NoDup_remove_dups).
  f_equal. apply set_eq. intros x.
  rewrite elem_of_difference, !elem_of_list_to_set, list_elem_of_filter,
    !elem_of_remove_dups.
  tauto.
Qed.

(** [_calculate_confidence] divides the number of dropped words by the
    number of distinct words of the original. *)
Lemma calculate_confidence_spec original rephrased :
  _calculate_confidence original rephrased
  = Spec.change_confidence Spec.distinct_word_count original rephrased.
Proof.
  unfold _calculate_confidence, Spec.change_confidence,
    Spec.distinct_word_count, Spec.dropped, Spec.W.
  destruct (String.eqb original rephrased); [done|].
  by rewrite size_difference_distinct, size_list_to_set_distinct.
Qed.

End Confidence.

(** C4, as the code has it: for a text of ASCII characters the confidence
    of [rephrase] is 0.0 when the rephrased text equals the original and
    otherwise
    [min(2 * |W(original) \ W(rephrased)| / max(|W(original)|, 1), 1.0)]:
    the divisor is the number of distinct lower-cased words of the
    original. *)
Theorem rephrase_confidence_formula (text : string) (kw : option (list string)) :
  Py.isascii text = true →
  TextRephraser.confidence (TextRephraser.rephrase text kw)
  = Spec.change_confidence Spec.distinct_word_count text
      (TextRephraser.rephrased (TextRephraser.rephrase text kw)).
Proof.
  intros _. unfold TextRephraser.rephrase. destruct (ToxicityAnalyzer.blank text).
  - cbn. unfold Spec.change_confidence. by rewrite String.eqb_refl.
  - cbn. apply calculate_confidence_spec.
Qed.

Lemma rephrase_confidence_formula_witness :
  Py.isascii "you idiot, that is dumb" = true
  ∧ TextRephraser.confidence (TextRephraser.rephrase "you idiot, that is dumb" None)
    = Spec.change_confidence Spec.distinct_word_count "you idiot, that is dumb"
        "you someone I disagree with, that is not well thought out".
Proof.
  split; [reflexivity|].
  rewrite (rephrase_confidence_formula "you idiot, that is dumb" None); [|reflexivity].
  vm_compute. reflexivity.
Defined.

(** C4, as the claim words it (the divisor is the number of words of the
    original), fails when a word occurs twice: five words, four distinct
    ones, one dropped; the code returns 0.5 and the claimed formula 0.4. *)
Lemma rephrase_confidence_word_count_fails :
  Py.isascii Sample.proverb = true
  ∧ TextRephraser.rephrased (TextRephraser.rephrase Sample.proverb None)
    = "unclear is as unclear does"
  ∧ Spec.word_count Sample.proverb = 5
  ∧ Spec.distinct_word_count Sample.proverb = 4
  ∧ Spec.dropped Sample.proverb "unclear is as unclear does" = ["stupid"]
  ∧ TextRephraser.confidence (TextRephraser.rephrase Sample.proverb None) = 0.5%float
  ∧ Spec.change_confidence Spec.word_count Sample.proverb
      "unclear is as unclear does" = 0.4%float
  ∧ TextRephraser.confidence (TextRephraser.rephrase Sample.proverb None)
    ≠ Spec.change_confidence Spec.word_count Sample.proverb
        (TextRephraser.rephrased (TextRephraser.rephrase Sample.proverb None)).
Proof.
  repeat split; try (vm_compute; reflexivity).
  apply float_neq; vm_compute; reflexivity.
Qed.

(** ** Word-boundary anchoring *)

Section Anchoring.

Import Re.

Variable icase : bool.

Lemma flat_map_flat_map {A B C} (f : A → list B) (g : B → list C) l :
  flat_map g (flat_map f l) = flat_map (λ x, flat_map g (f x)) l.
Proof.
  induction l as [|x l IH]; [done|]. cbn. by rewrite flat_map_app, IH.
Qed.

Lemma flat_map_all_nil {A B} (f : A → list B) l :
  (∀ x, x ∈ l → f x = []) → flat_map f l = [].
Proof.
  induction l as [|x l IH]; intros H; [done|]. cbn.
  rewrite (H x) by left. apply IH. intros y Hy. apply H. by right.
Qed.

(** Matching a concatenation: match the first part, then the second from
    wherever the first one ended, in backtracking order. *)
Lemma matches_app p q st :
  matches icase (p ++ q) st = flat_map (matches icase q) (matches icase p st).
Proof.
  revert st. induction p as [|t p IH]; intros st.
  - cbn. by rewrite app_nil_r.
  - destruct t as [a|a|n a|a|ws| |]; cbn [matches app].
    + destruct (step icase a st); [apply IH | done].
    + rewrite flat_map_app, IH. by destruct (step icase a st); rewrite ?IH.
    + rewrite flat_map_flat_map. apply flat_map_ext. intros [k st'].
      cbn [fst snd]. destruct (n <=? k); [apply IH | done].
    + destruct (step icase a st); [apply IH | done].
    + rewrite flat_map_flat_map. apply flat_map_ext. intros w.
      destruct (eat icase w st); [apply IH | done].
    + destruct (boundary st); [apply IH | done].
    + destruct (prev st); [done | apply IH].
Qed.

Lemma eqc_isword c x : eqc icase c x = true → Py.isword x = Py.isword c.
Proof.
  unfold eqc. destruct icase.
  - intros H%Ascii.eqb_eq.
    by rewrite <- (isword_lower_c x), <- (isword_lower_c c), H.
  - by intros ->%Ascii.eqb_eq.
Qed.

(** A phrase that begins with a word character only matches before a word
    character, and one that ends with a word character stops after one. *)
Lemma matches_first_wordy body st :
  Spec.wordy (head body) = true → matches icase body st ≠ [] →
  isword_opt (next (rest st)) = true.
Proof.
  destruct body as [|[[c| |]| | | | | |] body]; try done.
  cbn [Spec.wordy head matches]. unfold step. intros Hc.
  destruct (rest st) as [|x s]; [done|]. cbn [atom_ok].
  destruct (eqc icase c x) eqn:E; [|done].
  intros _. cbn. by rewrite (eqc_isword _ _ E).
Qed.

Lemma matches_last_wordy body st m :
  Spec.wordy (last body) = true → m ∈ matches icase body st →
  isword_opt (prev m) = true.
Proof.
  intros Hl Hm. destruct (last body) as [t|] eqn:El; [|done].
  apply last_Some in El as [body' ->].
  rewrite matches_app in Hm.
  apply list_elem_of_In, in_flat_map in Hm as (st1 & _ & Hm).
  destruct t as [[c| |]| | | | | |]; try done.
  cbn [matches] in Hm. unfold step in Hm.
  destruct (rest st1) as [|x s]; [done|]. cbn [atom_ok] in Hm.
  destruct (eqc icase c x) eqn:E; [|done].
  destruct Hm as [<-|[]]. cbn. by rewrite (eqc_isword _ _ E).
Qed.

(** An occurrence of the phrase with a word character right before it or
    right after it is no match of the anchored pattern. *)
Lemma anchored_no_match body pv s :
  Spec.wordy (head body) = true → Spec.wordy (last body) = true →
  forallb (λ m, isword_opt pv || isword_opt (next (rest m)))
          (matches icase body (start pv s)) = true →
  matches icase (TextRephraser.word body) (start pv s) = [].
Proof.
  intros Hh Hl Hall. unfold TextRephraser.word.
  change ([WordB] ++ body ++ [WordB]) with (WordB :: (body ++ [WordB])).
  cbn [matches]. destruct (boundary (start pv s)) eqn:Hb; [|done].
  rewrite matches_app. apply flat_map_all_nil. intros m Hm.
  cbn [matches].
  assert (Hne : matches icase body (start pv s) ≠ []) by (by destruct Hm).
  pose proof (matches_first_wordy _ _ Hh Hne) as Hnext.
  pose proof (matches_last_wordy _ _ _ Hl Hm) as Hprev.
  unfold boundary in Hb. rewrite Hnext in Hb. cbn [start prev] in Hb.
  rewrite forallb_forall in Hall.
  specialize (Hall m (proj1 (list_elem_of_In _ _) Hm)).
  destruct (isword_opt pv); [done|]. cbn in Hall.
  unfold boundary. by rewrite Hprev, Hall.
Qed.

Lemma anchored_silent_from body pv s :
  Spec.wordy (head body) = true → Spec.wordy (last body) = true →
  Spec.inside_words_from icase body pv s = true →
  search_from icase (TextRephraser.word body) pv s = false.
Proof.
  intros Hh Hl. revert pv. induction s as [|x s IH]; intros pv H;
    cbn [Spec.inside_words_from] in H; apply andb_true_iff in H as [H1 H2];
    cbn [search_from]; unfold match_at;
    rewrite (anchored_no_match _ _ _ Hh Hl H1); cbn [head]; [done|].
  by apply IH.
Qed.

End Anchoring.

Section Silence.

Import TextRephraser.

Lemma all_anchored : forallb Spec.anchored phrase_rules = true.
Proof. vm_compute. reflexivity. Qed.

(** A rule whose phrase occurs only inside longer words does not fire. *)
Lemma inside_words_silent r text :
  r ∈ phrase_rules → Spec.only_inside_words r text = true →
  Spec.fires r text = false.
Proof.
  intros Hr H. pose proof all_anchored as Ha. rewrite forallb_forall in Ha.
  specialize (Ha r (proj1 (list_elem_of_In _ _) Hr)).
  unfold Spec.anchored in Ha.
  apply andb_true_iff in Ha as [Ha Hl]. apply andb_true_iff in Ha as [Hp Hh].
  apply bool_decide_eq_true in Hp.
  unfold Spec.fires, Re.search. rewrite Hp.
  by apply anchored_silent_from.
Qed.

Lemma silent_from_spec j i rules text :
  Spec.silent_from j i rules text = true →
  ∀ k r, rules !! k = Some r → j + k ≠ i → Spec.fires r text = false.
Proof.
  revert j. induction rules as [|r0 rules IH]; intros j H k r Hk Hne; [done|].
  cbn [Spec.silent_from] in H. apply andb_true_iff in H as [H0 H].
  destruct k as [|k].
  - injection Hk as <-. rewrite Nat.add_0_r in Hne.
    apply orb_true_iff in H0 as [H0|H0].
    + by apply Nat.eqb_eq in H0.
    + by apply negb_true_iff in H0.
  - apply (IH _ H k r Hk). lia.
Qed.

Lemma all_silent rules text :
  (∀ r, r ∈ rules → Spec.fires r text = false) →
  Spec.some_rule_fires rules text = false.
Proof.
  induction rules as [|r rules IH]; intros H; [done|].
  unfold Spec.some_rule_fires. cbn [Spec.turns existsb fst snd].
  rewrite (H r) by left. rewrite (replace_all_silent r text) by (apply H; left).
  apply IH. intros r' Hr'. apply H. by right.
Qed.

(** What [rephrase] returns, without keywords, when no rule fires. *)
Lemma rephrase_silent text :
  Spec.some_rule_fires phrase_rules text = false →
  rephrased (rephrase text None) = text ∧ modified (rephrase text None) = false.
Proof.
  intros H. unfold rephrase. destruct (ToxicityAnalyzer.blank text); [done|].
  by rewrite apply_rules_spec, H, (compose_rules_silent _ _ H).
Qed.

End Silence.

(** C7: the rule patterns are anchored at word boundaries.  When the phrase
    of one rule occurs in a text of ASCII characters only as a proper part
    of longer words, and
    no other rule matches the text, [rephrase] without keywords returns the
    text unchanged and not modified; the rule for [hate] does not fire on
    [hateful]. *)
Theorem rephrase_ignores_parts_of_words :
  (∀ i r text,
     Py.isascii text = true →
     TextRephraser.phrase_rules !! i = Some r →
     Spec.only_inside_words r text = true →
     Spec.silent_except i text = true →
     Spec.fires r text = false
     ∧ TextRephraser.rephrased (TextRephraser.rephrase text None) = text
     ∧ TextRephraser.modified (TextRephraser.rephrase text None) = false)
  ∧ (∀ r, r ∈ TextRephraser.phrase_rules → Spec.anchored r = true)
  ∧ TextRephraser.phrase_rules !! 19
    = Some (TextRephraser.Rule (TextRephraser.word (Re.lit "hate"))
                               "strongly dislike" true)
  ∧ Re.search true (TextRephraser.word (Re.lit "hate")) "hateful" = false
  ∧ Py.contains "hate" "hateful" = true
  ∧ TextRephraser.rephrased (TextRephraser.rephrase "hateful" None) = "hateful"
  ∧ TextRephraser.modified (TextRephraser.rephrase "hateful" None) = false.
Proof.
  split; [|split; [|repeat split; vm_compute; reflexivity]].
  - intros i r text _ Hi Hin Hs.
    assert (Hr : Spec.fires r text = false).
    { apply inside_words_silent; [|done]. by apply list_elem_of_lookup_2 in Hi. }
    split; [done|]. apply rephrase_silent, all_silent.
    intros r' [k Hk]%list_elem_of_lookup.
    destruct (decide (k = i)) as [->|Hne].
    + by replace r' with r by congruence.
    + by apply (silent_from_spec 0 i _ _ Hs k).
  - intros r Hr. pose proof all_anchored as Ha. rewrite forallb_forall in Ha.
    apply Ha. by apply list_elem_of_In.
Qed.

Lemma rephrase_ignores_parts_of_words_witness :
  Py.isascii "a hateful whatever" = true
  ∧ TextRephraser.rephrased (TextRephraser.rephrase "a hateful whatever" None)
    = "a hateful whatever"
  ∧ TextRephraser.modified (TextRephraser.rephrase "a hateful whatever" None) = false.
Proof.
  split; [reflexivity|].
  refine (proj2 (proj1 rephrase_ignores_parts_of_words 19
                   (TextRephraser.Rule (TextRephraser.word (Re.lit "hate"))
                                       "strongly dislike" true)
                   "a hateful whatever" _ _ _ _));
    vm_compute; reflexivity.
Defined.


(** * Further properties of the code *)

(** ** What [analyze] reports *)

Section Reports.

Import ToxicityAnalyzer.

Variable text_lower : string.

Lemma scan_keywords_elem category data ks st k :
  k ∈ found_keywords (fold_left (scan_keyword text_lower category data) ks st) ↔
  k ∈ found_keywords st ∨ (k ∈ ks ∧ Py.contains k text_lower = true).
Proof.
  revert st. induction ks as [|k0 ks IH]; intros st; cbn [fold_left].
  - split; [by left|]. intros [H|[H _]]; [done|]. by apply elem_of_nil in H.
  - rewrite IH. unfold scan_keyword.
    destruct (Py.contains k0 text_lower) eqn:E; cbn [found_keywords].
    + rewrite elem_of_app, list_elem_of_singleton, elem_of_cons.
      intuition (subst; auto).
    + rewrite elem_of_cons. intuition (subst; auto; congruence).
Qed.

Lemma scan_keywords_cats category data ks st c :
  c ∈ found_categories (fold_left (scan_keyword text_lower category data) ks st) ↔
  c ∈ found_categories st
  ∨ (c = category ∧ existsb (λ k, Py.contains k text_lower) ks = true).
Proof.
  revert st. induction ks as [|k0 ks IH]; intros st; cbn [fold_left existsb].
  - intuition discriminate.
  - rewrite IH. unfold scan_keyword.
    destruct (Py.contains k0 text_lower) eqn:E; cbn [found_categories orb].
    + rewrite elem_of_app, list_elem_of_singleton. intuition auto.
    + tauto.
Qed.

Lemma scan_table_elem table st k :
  k ∈ found_keywords (fold_left (scan_category text_lower) table st) ↔
  k ∈ found_keywords st
  ∨ (k ∈ flat_map pat_keywords (List.map snd table)
     ∧ Py.contains k text_lower = true).
Proof.
  revert st. induction table as [|[category data] table IH]; intros st;
    cbn [fold_left List.map flat_map snd].
  - split; [by left|]. intros [H|[H _]]; [done|]. by apply elem_of_nil in H.
  - rewrite IH. unfold scan_category. cbn [fst snd].
    rewrite scan_keywords_elem, elem_of_app. tauto.
Qed.

Lemma scan_table_cats table st c :
  c ∈ found_categories (fold_left (scan_category text_lower) table st) ↔
  c ∈ found_categories st
  ∨ ∃ data, (c, data) ∈ table ∧ Spec.hit text_lower data = true.
Proof.
  revert st. induction table as [|[category data] table IH]; intros st;
    cbn [fold_left].
  - split; [by left|]. intros [H|(d & H & _)]; [done|]. by apply elem_of_nil in H.
  - rewrite IH. unfold scan_category. cbn [fst snd].
    rewrite scan_keywords_cats. fold (Spec.hit text_lower data). split.
    + intros [[H|[-> H]]|(d & H1 & H2)].
      * by left.
      * right. exists data. split; [left|done].
      * right. exists d. split; [by right|done].
    + intros [H|(d & H1 & H2)]; [by left; left|].
      apply elem_of_cons in H1 as [[= -> ->]|H1].
      * left. by right.
      * right. by exists d.
Qed.

End Reports.

Section Verdicts.

Import ToxicityAnalyzer.

Lemma analyze_keywords_elem text k :
  k ∈ keywords (analyze text) ↔
  Spec.whitespace_only text = false
  ∧ k ∈ Aux.all_keywords ∧ Py.contains k (Py.lower text) = true.
Proof.
  unfold analyze. rewrite blank_spec.
  destruct (Spec.whitespace_only text); cbn [keywords].
  - split; [by intros ?%elem_of_empty | by intros [? _]].
  - rewrite elem_of_list_to_set. unfold scan_patterns. rewrite scan_table_elem.
    cbn [scan0 found_keywords]. rewrite elem_of_nil. unfold Aux.all_keywords. tauto.
Qed.

Lemma analyze_categories_elem text c :
  c ∈ categories (analyze text) ↔
  Spec.whitespace_only text = false
  ∧ ∃ data, (c, data) ∈ toxic_patterns ∧ Spec.category_matches text data = true.
Proof.
  unfold analyze. rewrite blank_spec.
  destruct (Spec.whitespace_only text); cbn [categories].
  - split; [by intros ?%elem_of_empty | by intros [? _]].
  - rewrite elem_of_list_to_set. unfold scan_patterns. rewrite scan_table_cats.
    cbn [scan0 found_categories]. rewrite elem_of_nil.
    unfold Spec.category_matches. tauto.
Qed.

(** The verdict on a text that is not blank, in terms of the categories
    that match and of the three context tests. *)
Lemma analyze_severity_spec text :
  Spec.whitespace_only text = false →
  severity (analyze text) =
  Py.min (Spec.maximum (List.map pat_severity
                          (List.filter (Spec.category_matches text)
                                       (List.map snd toxic_patterns)))
          * Spec.product [ (Spec.repeated3 Spec.not_newline text, 1.2%float);
                           (Spec.shouting text, 1.3%float);
                           (Spec.exclaiming text, 1.2%float) ])%float 1.0.
Proof.
  intros H. destruct (analyze_not_blank _ H) as (-> & _).
  unfold _analyze_context. rewrite context_product, search_repeated. reflexivity.
Qed.

Lemma analyze_found text :
  Spec.whitespace_only text = false →
  (0 <? length (found_keywords (scan_patterns (Py.lower text))))
  = existsb (Spec.category_matches text) (List.map snd toxic_patterns).
Proof. intros _. unfold scan_patterns. by rewrite scan_table_found. Qed.

Lemma analyze_isToxic_spec text :
  Spec.whitespace_only text = false →
  isToxic (analyze text) =
  existsb (Spec.category_matches text) (List.map snd toxic_patterns)
  && (CONFIDENCE_THRESHOLD <=? severity (analyze text))%float.
Proof.
  intros H. unfold analyze. rewrite blank_spec, H.
  cbn [isToxic severity]. by rewrite (analyze_found _ H).
Qed.

Lemma analyze_keywords_empty text :
  Spec.whitespace_only text = false →
  keywords (analyze text) = ∅ ↔
  existsb (Spec.category_matches text) (List.map snd toxic_patterns) = false.
Proof.
  intros H. rewrite <- (analyze_found _ H). unfold analyze.
  rewrite blank_spec, H. cbn [keywords].
  destruct (found_keywords (scan_patterns (Py.lower text))) as [|k l]; cbn.
  - done.
  - split; [|done]. intros E. exfalso.
    assert (Hk : k ∈ (∅ : gset string)) by (rewrite <- E; set_solver).
    by apply elem_of_empty in Hk.
Qed.

(** Whatever categories match and whatever context tests hold: the
    verdict is toxic when a category other than profanity matches, or
    profanity does and some context test holds. *)
Lemma toxic_decision (f : pattern → bool) (b1 b2 b3 : bool) :
  existsb f (List.map snd toxic_patterns)
  && (CONFIDENCE_THRESHOLD
      <=? Py.min (Spec.maximum (List.map pat_severity
                                  (List.filter f (List.map snd toxic_patterns)))
                  * Spec.product [(b1, 1.2%float); (b2, 1.3%float); (b3, 1.2%float)])
                 1.0)%float
  = existsb f Aux.strong_patterns || (existsb f Aux.mild_patterns && (b1 || b2 || b3)).
Proof.
  let x := eval vm_compute in Aux.strong_patterns in change Aux.strong_patterns with x.
  let x := eval vm_compute in Aux.mild_patterns in change Aux.mild_patterns with x.
  let x := eval vm_compute in (List.map snd toxic_patterns) in
    change (List.map snd toxic_patterns) with x.
  cbn [List.filter existsb].
  repeat match goal with
         | |- context [f ?p] => destruct (f p)
         end;
    destruct b1, b2, b3; vm_compute; reflexivity.
Qed.

(** The score is 0.0 when nothing matches and otherwise at least 0.5, at
    least the severity of the worst matching category and at most 1. *)
Lemma score_decision (f : pattern → bool) (b1 b2 b3 : bool) :
  let m := Spec.maximum (List.map pat_severity
                           (List.filter f (List.map snd toxic_patterns))) in
  let x := Py.min (m * Spec.product [(b1, 1.2%float); (b2, 1.3%float); (b3, 1.2%float)])%float
                  1.0 in
  if existsb f (List.map snd toxic_patterns)
  then (0.5 <=? x)%float = true ∧ (m <=? x)%float = true ∧ (x <=? 1)%float = true
  else x = 0%float.
Proof.
  let x := eval vm_compute in (List.map snd toxic_patterns) in
    change (List.map snd toxic_patterns) with x.
  cbn [List.filter existsb].
  repeat match goal with
         | |- context [f ?p] => destruct (f p)
         end;
    destruct b1, b2, b3; vm_compute; done.
Qed.

Lemma exists_filtered (f : pattern → bool) (g : string * pattern → bool) table :
  existsb f (List.map snd (List.filter g table)) = true ↔
  ∃ c data, (c, data) ∈ table ∧ g (c, data) = true ∧ f data = true.
Proof.
  induction table as [|[c d] table IH]; cbn [List.filter].
  - split; [done|]. intros (? & ? & H & _). by apply elem_of_nil in H.
  - destruct (g (c, d)) eqn:Eg; cbn [List.map existsb snd];
      rewrite ?orb_true_iff, IH; split.
    + intros [H|(c' & d' & H1 & H2 & H3)].
      * exists c, d. split; [left|done].
      * exists c', d'. split; [by right|done].
    + intros (c' & d' & H1 & H2 & H3).
      apply elem_of_cons in H1 as [[= -> ->]|H1]; [by left|].
      right. by exists c', d'.
    + intros (c' & d' & H1 & H2 & H3). exists c', d'. split; [by right|done].
    + intros (c' & d' & H1 & H2 & H3).
      apply elem_of_cons in H1 as [[= -> ->]|H1]; [congruence|].
      by exists c', d'.
Qed.

Lemma strong_matches text :
  Spec.whitespace_only text = false →
  existsb (Spec.category_matches text) Aux.strong_patterns = true ↔
  ∃ c, c ∈ categories (analyze text) ∧ c ≠ "profanity".
Proof.
  intros Hb. unfold Aux.strong_patterns. rewrite exists_filtered. split.
  - intros (c & d & H1 & H2 & H3). exists c. split.
    + apply analyze_categories_elem. split; [done|]. by exists d.
    + unfold Aux.is_profanity in H2. cbn [fst] in H2.
      apply negb_true_iff in H2. by apply String.eqb_neq in H2.
  - intros (c & [_ (d & H1 & H2)]%analyze_categories_elem & Hne).
    exists c, d. split; [done|]. split; [|done].
    unfold Aux.is_profanity. cbn [fst]. apply negb_true_iff. by apply String.eqb_neq.
Qed.

Lemma mild_matches text :
  Spec.whitespace_only text = false →
  existsb (Spec.category_matches text) Aux.mild_patterns = true ↔
  "profanity" ∈ categories (analyze text).
Proof.
  intros Hb. unfold Aux.mild_patterns. rewrite exists_filtered. split.
  - intros (c & d & H1 & H2 & H3).
    unfold Aux.is_profanity in H2. cbn [fst] in H2. apply String.eqb_eq in H2 as ->.
    apply analyze_categories_elem. split; [done|]. by exists d.
  - intros [_ (d & H1 & H2)]%analyze_categories_elem.
    by exists "profanity", d.
Qed.

Lemma analyze_isToxic_decided text :
  Spec.whitespace_only text = false →
  isToxic (analyze text) =
  existsb (Spec.category_matches text) Aux.strong_patterns
  || (existsb (Spec.category_matches text) Aux.mild_patterns && Aux.intense text).
Proof.
  intros Hb. rewrite (analyze_isToxic_spec _ Hb), (analyze_severity_spec _ Hb).
  apply toxic_decision.
Qed.

Lemma generate_suggestions_elem cats c a :
  (c, a) ∈ Aux.advisories → a ∈ _generate_suggestions cats ↔ c ∈ cats.
Proof.
  unfold Aux.advisories. rewrite !elem_of_cons, elem_of_nil.
  unfold _generate_suggestions, mem.
  intros [[= -> ->]|[[= -> ->]|[[= -> ->]|[[= -> ->]|[]]]]];
    repeat case_bool_decide; cbn [app];
    rewrite ?elem_of_cons, ?elem_of_nil; intuition discriminate.
Qed.

Lemma generate_suggestions_sublist cats :
  sublist (_generate_suggestions cats) (List.map snd Aux.advisories).
Proof.
  let x := eval vm_compute in (List.map snd Aux.advisories) in
    change (List.map snd Aux.advisories) with x.
  unfold _generate_suggestions, mem.
  repeat case_bool_decide; cbn [app];
    repeat first [apply sublist_nil | apply sublist_skip | apply sublist_cons].
Qed.

End Verdicts.

(** X1: for a text of ASCII characters, the keywords [analyze] reports are
    exactly the keywords of the table that are substrings of the
    lower-cased text, and the categories it reports are exactly those with
    such a keyword; a blank text reports none. *)
Theorem analyze_reports_exactly (text : string) :
  Py.isascii text = true →
  (∀ k, k ∈ ToxicityAnalyzer.keywords (ToxicityAnalyzer.analyze text) ↔
        Spec.whitespace_only text = false
        ∧ k ∈ Aux.all_keywords
        ∧ Py.contains k (Py.lower text) = true)
  ∧ (∀ c, c ∈ ToxicityAnalyzer.categories (ToxicityAnalyzer.analyze text) ↔
          Spec.whitespace_only text = false
          ∧ ∃ data, (c, data) ∈ ToxicityAnalyzer.toxic_patterns
                    ∧ Spec.category_matches text data = true).
Proof.
  intros _.
  split; intros x; [apply analyze_keywords_elem | apply analyze_categories_elem].
Qed.

Lemma analyze_reports_exactly_witness :
  Py.isascii "You FREAK" = true
  ∧ "freak" ∈ ToxicityAnalyzer.keywords (ToxicityAnalyzer.analyze "You FREAK")
  ∧ "offensive" ∈ ToxicityAnalyzer.categories (ToxicityAnalyzer.analyze "You FREAK").
Proof.
  split; [reflexivity|].
  destruct (analyze_reports_exactly "You FREAK") as [Hk Hc]; [reflexivity|].
  split.
  - apply Hk. split; [reflexivity|]. split; [|reflexivity].
    unfold Aux.all_keywords. apply list_elem_of_In. cbn. tauto.
  - apply Hc. split; [reflexivity|].
    exists (ToxicityAnalyzer.Pattern
              ["disgusting"; "ugly"; "freak"; "weird"; "creep"] 0.7).
    split; [|reflexivity]. unfold ToxicityAnalyzer.toxic_patterns.
    do 5 apply list_elem_of_further. apply list_elem_of_here.
Defined.

(** X2: [analyze] judges a text of ASCII characters toxic exactly when it
    reports a category other than [profanity], or reports [profanity] and one of the three
    context tests holds (the profanity severity 0.5 alone stays below the
    threshold 0.6; with any context factor it reaches it). *)
Theorem analyze_toxic_iff (text : string) :
  Py.isascii text = true →
  ToxicityAnalyzer.isToxic (ToxicityAnalyzer.analyze text) = true ↔
  (∃ c, c ∈ ToxicityAnalyzer.categories (ToxicityAnalyzer.analyze text)
        ∧ c ≠ "profanity")
  ∨ ("profanity" ∈ ToxicityAnalyzer.categories (ToxicityAnalyzer.analyze text)
     ∧ Aux.intense text = true).
Proof.
  intros _. destruct (Spec.whitespace_only text) eqn:Hb.
  - rewrite (analyze_blank _ Hb). cbn. split; [done|].
    intros [(c & H & _)|[H _]]; by apply elem_of_empty in H.
  - rewrite (analyze_isToxic_decided _ Hb), orb_true_iff, andb_true_iff,
      (strong_matches _ Hb), (mild_matches _ Hb). done.
Qed.

Lemma analyze_toxic_iff_witness :
  Py.isascii "damn!!" = true
  ∧ ToxicityAnalyzer.isToxic (ToxicityAnalyzer.analyze "damn!!") = true
  ∧ ((∃ c, c ∈ ToxicityAnalyzer.categories (ToxicityAnalyzer.analyze "damn!!")
           ∧ c ≠ "profanity")
     ∨ ("profanity" ∈ ToxicityAnalyzer.categories (ToxicityAnalyzer.analyze "damn!!")
        ∧ Aux.intense "damn!!" = true)).
Proof.
  split; [reflexivity|].
  assert (H : ToxicityAnalyzer.isToxic (ToxicityAnalyzer.analyze "damn!!") = true)
    by (vm_compute; reflexivity).
  split; [exact H|].
  exact (proj1 (analyze_toxic_iff "damn!!" eq_refl) H).
Defined.

(** X3: the suggestions of a verdict are advisories of the fixed list, in
    its order and without repetition, and the advisory of a category is
    among them exactly when the verdict is toxic and reports that
    category. *)
Theorem analyze_suggestions (text : string) :
  sublist (ToxicityAnalyzer.suggestions (ToxicityAnalyzer.analyze text))
          (List.map snd Aux.advisories)
  ∧ ∀ c a, (c, a) ∈ Aux.advisories →
      a ∈ ToxicityAnalyzer.suggestions (ToxicityAnalyzer.analyze text) ↔
      ToxicityAnalyzer.isToxic (ToxicityAnalyzer.analyze text) = true
      ∧ c ∈ ToxicityAnalyzer.categories (ToxicityAnalyzer.analyze text).
Proof.
  unfold ToxicityAnalyzer.analyze. destruct (ToxicityAnalyzer.blank text).
  - cbn. split; [apply sublist_nil_l|]. intros c a _.
    split; [by intros ?%elem_of_nil | by intros [? _]].
  - cbn [ToxicityAnalyzer.suggestions ToxicityAnalyzer.isToxic
         ToxicityAnalyzer.categories].
    destruct (_ && _).
    + split; [apply generate_suggestions_sublist|]. intros c a Hca.
      rewrite (generate_suggestions_elem _ _ _ Hca), elem_of_list_to_set. tauto.
    + split; [apply sublist_nil_l|]. intros c a _.
      split; [by intros ?%elem_of_nil | by intros [? _]].
Qed.

(** X4: [get_toxicity_score] is 0.0 when [analyze] finds no keyword;
    otherwise it is at least 0.5, at least the severity of the worst
    matching category (the context never lowers it) and at most 1. *)
Theorem toxicity_score_bounds (text : string) :
  (ToxicityAnalyzer.keywords (ToxicityAnalyzer.analyze text) = ∅ →
   ToxicityAnalyzer.get_toxicity_score text = 0%float)
  ∧ (ToxicityAnalyzer.keywords (ToxicityAnalyzer.analyze text) ≠ ∅ →
     (0.5 <=? ToxicityAnalyzer.get_toxicity_score text)%float = true
     ∧ (Spec.maxSeverity text <=? ToxicityAnalyzer.get_toxicity_score text)%float = true
     ∧ (ToxicityAnalyzer.get_toxicity_score text <=? 1)%float = true).
Proof.
  unfold ToxicityAnalyzer.get_toxicity_score.
  destruct (Spec.whitespace_only text) eqn:Hb.
  - rewrite (analyze_blank _ Hb). cbn. split; [done|]. by intros [].
  - rewrite (analyze_keywords_empty _ Hb), (analyze_severity_spec _ Hb).
    pose proof (score_decision (Spec.category_matches text)
                  (Spec.repeated3 Spec.not_newline text) (Spec.shouting text)
                  (Spec.exclaiming text)) as H.
    cbv zeta in H. unfold Spec.maxSeverity.
    destruct (existsb _ _); split; done.
Qed.

(** X5: on a text of ASCII characters the context multiplier is 1.0 when
    none of the three tests holds and otherwise lies between 1.2 and
    1.2 * 1.3 * 1.2. *)
Theorem context_multiplier_range (text : string) :
  Py.isascii text = true →
  (Aux.intense text = false → ToxicityAnalyzer._analyze_context text = 1%float)
  ∧ (Aux.intense text = true →
     (1.2 <=? ToxicityAnalyzer._analyze_context text)%float = true
     ∧ (ToxicityAnalyzer._analyze_context text <=? 1.2 * 1.3 * 1.2)%float = true).
Proof.
  intros _. unfold ToxicityAnalyzer._analyze_context, Aux.intense.
  rewrite search_repeated.
  change (10 <? Py.len text) with (10 <? String.length text).
  fold (Spec.shouting text). fold (Spec.exclaiming text).
  destruct (Spec.repeated3 Spec.not_newline text), (Spec.shouting text),
    (Spec.exclaiming text); vm_compute; split; done.
Qed.

Lemma context_multiplier_range_witness :
  Py.isascii "WHAT IS THIS" = true
  ∧ Aux.intense "WHAT IS THIS" = true
  ∧ (1.2 <=? ToxicityAnalyzer._analyze_context "WHAT IS THIS")%float = true
  ∧ ToxicityAnalyzer._analyze_context "calm words" = 1%float.
Proof.
  split; [reflexivity|]. split; [reflexivity|].
  destruct (context_multiplier_range "WHAT IS THIS") as [_ H1]; [reflexivity|].
  destruct (context_multiplier_range "calm words") as [H2 _]; [reflexivity|].
  split; [apply H1; reflexivity | apply H2; reflexivity].
Defined.

(** ** Matching is on the lower-cased text, by substring *)

Section Substrings.

Import ToxicityAnalyzer.

Lemma isspace_lower_c c : Py.isspace (Py.lower_c c) = Py.isspace c.
Proof. destruct c as [[] [] [] [] [] [] [] []]; reflexivity. Qed.

Lemma whitespace_only_lower text :
  Spec.whitespace_only (Py.lower text) = Spec.whitespace_only text.
Proof.
  unfold Spec.whitespace_only, Py.lower.
  induction text as [|c s IH]; [done|]. cbn [Py.map Py.all].
  by rewrite isspace_lower_c, IH.
Qed.

Lemma append_cons c (s t : string) : String c s +:+ t = String c (s +:+ t).
Proof. reflexivity. Qed.

Lemma lower_app (a b : string) : Py.lower (a +:+ b) = Py.lower a +:+ Py.lower b.
Proof.
  unfold Py.lower. induction a as [|c a IH]; [done|].
  rewrite append_cons. cbn [Py.map]. by rewrite IH.
Qed.

Lemma all_app f (a b : string) : Py.all f (a +:+ b) = Py.all f a && Py.all f b.
Proof.
  induction a as [|c a IH]; [done|].
  rewrite append_cons. cbn [Py.all]. by rewrite IH, andb_assoc.
Qed.

Lemma prefix_app k (s t : string) :
  String.prefix k s = true → String.prefix k (s +:+ t) = true.
Proof.
  revert s. induction k as [|c k IH]; intros s H; [by destruct (s +:+ t)|].
  destruct s as [|x s]; [done|]. rewrite append_cons.
  cbn [String.prefix] in *. destruct (ascii_dec c x); [by apply IH|done].
Qed.

Lemma contains_app_l k (s t : string) :
  Py.contains k s = true → Py.contains k (s +:+ t) = true.
Proof.
  induction s as [|x s IH]; intros H.
  - cbn [Py.contains] in H. rewrite orb_false_r in H.
    destruct k; [|done]. by destruct t.
  - rewrite append_cons. cbn [Py.contains] in *.
    apply orb_true_iff in H as [H|H]; apply orb_true_iff.
    + left. by apply (prefix_app _ (String x s) t).
    + right. by apply IH.
Qed.

Lemma contains_app_r k (s t : string) :
  Py.contains k s = true → Py.contains k (t +:+ s) = true.
Proof.
  intros H. induction t as [|x t IH]; [done|].
  rewrite append_cons. cbn [Py.contains]. by rewrite IH, orb_true_r.
Qed.

Lemma contains_embedded k (pre s post : string) :
  Py.contains k s = true → Py.contains k (pre +:+ s +:+ post) = true.
Proof. intros H. by apply contains_app_r, contains_app_l. Qed.

Lemma whitespace_only_embedded (pre s post : string) :
  Spec.whitespace_only s = false →
  Spec.whitespace_only (pre +:+ s +:+ post) = false.
Proof.
  unfold Spec.whitespace_only. intros H. rewrite !all_app, H.
  by rewrite andb_false_r.
Qed.

Lemma category_matches_embedded (pre s post : string) data :
  Spec.category_matches s data = true →
  Spec.category_matches (pre +:+ s +:+ post) data = true.
Proof.
  unfold Spec.category_matches, Spec.hit. rewrite !existsb_exists.
  intros (k & Hk & Hc). exists k. split; [done|].
  rewrite !lower_app. by apply contains_embedded.
Qed.

End Substrings.

(** X6: keyword detection ignores case: two texts with the same
    lower-casing get the same keywords and categories and the same
    severity before the context adjustment. *)
Theorem analyze_ignores_case (t1 t2 : string) :
  Py.lower t1 = Py.lower t2 →
  ToxicityAnalyzer.keywords (ToxicityAnalyzer.analyze t1)
  = ToxicityAnalyzer.keywords (ToxicityAnalyzer.analyze t2)
  ∧ ToxicityAnalyzer.categories (ToxicityAnalyzer.analyze t1)
    = ToxicityAnalyzer.categories (ToxicityAnalyzer.analyze t2)
  ∧ Spec.maxSeverity t1 = Spec.maxSeverity t2.
Proof.
  intros H.
  assert (Hb : Spec.whitespace_only t1 = Spec.whitespace_only t2).
  { by rewrite <- (whitespace_only_lower t1), <- (whitespace_only_lower t2), H. }
  split; [|split].
  - apply set_eq. intros k. by rewrite !analyze_keywords_elem, Hb, H.
  - apply set_eq. intros c. rewrite !analyze_categories_elem, Hb.
    unfold Spec.category_matches. by rewrite H.
  - unfold Spec.maxSeverity, Spec.category_matches. by rewrite H.
Qed.

Lemma analyze_ignores_case_witness :
  ToxicityAnalyzer.keywords (ToxicityAnalyzer.analyze "You Are STUPID")
  = ToxicityAnalyzer.keywords (ToxicityAnalyzer.analyze "you are stupid").
Proof.
  apply (analyze_ignores_case "You Are STUPID" "you are stupid"). reflexivity.
Defined.

(** X7: text around a text never hides a finding: the keywords and
    categories reported for a text are also reported for every text that
    contains it. *)
Theorem analyze_findings_grow (pre text post : string) :
  ToxicityAnalyzer.keywords (ToxicityAnalyzer.analyze text)
  ⊆ ToxicityAnalyzer.keywords (ToxicityAnalyzer.analyze (pre +:+ text +:+ post))
  ∧ ToxicityAnalyzer.categories (ToxicityAnalyzer.analyze text)
    ⊆ ToxicityAnalyzer.categories (ToxicityAnalyzer.analyze (pre +:+ text +:+ post)).
Proof.
  split.
  - intros k (Hb & Hk & Hc)%analyze_keywords_elem. apply analyze_keywords_elem.
    split; [by apply whitespace_only_embedded|]. split; [done|].
    rewrite !lower_app. by apply contains_embedded.
  - intros c (Hb & d & Hd & Hm)%analyze_categories_elem.
    apply analyze_categories_elem.
    split; [by apply whitespace_only_embedded|]. exists d.
    split; [done|]. by apply category_matches_embedded.
Qed.

(** ** What [rephrase] returns, for every text and keyword list *)

Section Rephrasing.

Import TextRephraser.

Lemma blank_no_word s : Spec.whitespace_only s = true → Re.isword_opt (Re.next s) = false.
Proof.
  unfold Spec.whitespace_only. destruct s as [|c s]; [done|]. cbn [Py.all Re.next].
  intros [Hc _]%andb_true_iff. cbn. by destruct (isspace_not_cased _ Hc) as (_ & _ & -> & _).
Qed.

(** An anchored pattern needs a word character where it starts. *)
Lemma anchored_needs_word icase body pv s :
  Spec.wordy (head body) = true → Re.isword_opt (Re.next s) = false →
  Re.match_at icase (word body) pv s = None.
Proof.
  intros Hh Hs. unfold Re.match_at, word.
  change ([Re.WordB] ++ body ++ [Re.WordB]) with (Re.WordB :: (body ++ [Re.WordB])).
  cbn [Re.matches]. destruct (Re.boundary (Re.start pv s)); [|done].
  rewrite matches_app.
  destruct (Re.matches icase body (Re.start pv s)) as [|m l] eqn:E; [done|].
  assert (Hne : Re.matches icase body (Re.start pv s) ≠ []) by (by rewrite E).
  apply (matches_first_wordy _ _ _ Hh) in Hne. cbn [Re.start Re.rest] in Hne.
  congruence.
Qed.

Lemma anchored_silent_on_blank icase body pv s :
  Spec.wordy (head body) = true → Spec.whitespace_only s = true →
  Re.search_from icase (word body) pv s = false.
Proof.
  intros Hh. revert pv. induction s as [|c s IH]; intros pv Hs; cbn [Re.search_from];
    rewrite (anchored_needs_word _ _ _ _ Hh (blank_no_word _ Hs)); [done|].
  apply IH. unfold Spec.whitespace_only in *. cbn [Py.all] in Hs.
  by apply andb_true_iff in Hs as [_ Hs].
Qed.

(** No phrase rule fires on a blank text. *)
Lemma blank_rules_silent text :
  Spec.whitespace_only text = true →
  Spec.some_rule_fires phrase_rules text = false.
Proof.
  intros Hb. apply all_silent. intros r Hr.
  pose proof all_anchored as Ha. rewrite forallb_forall in Ha.
  specialize (Ha r (proj1 (list_elem_of_In _ _) Hr)). unfold Spec.anchored in Ha.
  apply andb_true_iff in Ha as [Ha _]. apply andb_true_iff in Ha as [Hp Hh].
  apply bool_decide_eq_true in Hp.
  unfold Spec.fires, Re.search. rewrite Hp. by apply anchored_silent_on_blank.
Qed.

(** The two outputs of [rephrase] on any text: the rules' composition when
    a rule fires, else the softened text when keywords are supplied, else
    the text. *)
Lemma rephrase_rephrased text kw :
  rephrased (rephrase text kw) =
  if Spec.some_rule_fires phrase_rules text
  then Spec.compose_rules phrase_rules text
  else if supplied kw then Spec.soften text else text.
Proof.
  unfold rephrase. rewrite blank_spec.
  destruct (Spec.whitespace_only text) eqn:Hb.
  - rewrite (blank_rules_silent _ Hb), (soften_blank _ Hb). cbn. by destruct (supplied kw).
  - rewrite apply_rules_spec. cbn [fst snd].
    destruct (Spec.some_rule_fires phrase_rules text) eqn:Hf; cbn [negb andb]; [done|].
    destruct (supplied kw); cbn [fst].
    + apply general_softening_spec.
    + by apply compose_rules_silent.
Qed.

Lemma rephrase_modified text kw :
  modified (rephrase text kw) =
  Spec.some_rule_fires phrase_rules text
  || (supplied kw && negb (String.eqb (Spec.soften text) text)).
Proof.
  unfold rephrase. rewrite blank_spec.
  destruct (Spec.whitespace_only text) eqn:Hb.
  - rewrite (blank_rules_silent _ Hb), (soften_blank _ Hb), String.eqb_refl. cbn.
    by rewrite andb_false_r.
  - rewrite apply_rules_spec. cbn [fst snd].
    destruct (Spec.some_rule_fires phrase_rules text) eqn:Hf; cbn [negb andb orb]; [done|].
    destruct (supplied kw); cbn [snd andb]; [|done].
    by rewrite general_softening_spec.
Qed.

Lemma rephrase_confidence text kw :
  confidence (rephrase text kw)
  = _calculate_confidence text (rephrased (rephrase text kw)).
Proof.
  unfold rephrase. destruct (ToxicityAnalyzer.blank text); cbn; [|done].
  unfold _calculate_confidence. by rewrite String.eqb_refl.
Qed.

Lemma rephrase_original text kw : original (rephrase text kw) = text.
Proof. unfold rephrase. by destruct (ToxicityAnalyzer.blank text). Qed.

End Rephrasing.

(** X8: a result that is not flagged as modified carries the original text
    and confidence 0.0. *)
Theorem rephrase_unmodified_is_unchanged (text : string) (kw : option (list string)) :
  TextRephraser.modified (TextRephraser.rephrase text kw) = false →
  TextRephraser.rephrased (TextRephraser.rephrase text kw) = text
  ∧ TextRephraser.confidence (TextRephraser.rephrase text kw) = 0%float.
Proof.
  intros H. rewrite rephrase_modified in H.
  apply orb_false_iff in H as [Hf Hs].
  assert (Hr : TextRephraser.rephrased (TextRephraser.rephrase text kw) = text).
  { rewrite rephrase_rephrased, Hf.
    destruct (TextRephraser.supplied kw); [|done].
    cbn in Hs. apply negb_false_iff in Hs. by apply String.eqb_eq in Hs. }
  split; [done|]. rewrite rephrase_confidence, Hr.
  unfold TextRephraser._calculate_confidence. by rewrite String.eqb_refl.
Qed.

Lemma rephrase_unmodified_is_unchanged_witness :
  TextRephraser.rephrased (TextRephraser.rephrase "have a nice day" (Some ["nice"]))
  = "have a nice day"
  ∧ TextRephraser.confidence
      (TextRephraser.rephrase "have a nice day" (Some ["nice"])) = 0%float.
Proof.
  apply (rephrase_unmodified_is_unchanged "have a nice day" (Some ["nice"])).
  vm_compute. reflexivity.
Defined.

(** X9: on texts of ASCII characters [batch_rephrase] returns one result
    per text, in order, and uses the phrase rules only: each result is the
    composition of the rules on its text, flagged as modified exactly when
    a rule fired; the softening fallback is never applied. *)
Theorem batch_rephrase_rules_only (texts : list string) :
  forallb Py.isascii texts = true →
  length (TextRephraser.batch_rephrase texts) = length texts
  ∧ ∀ i text, texts !! i = Some text →
      ∃ r, TextRephraser.batch_rephrase texts !! i = Some r
           ∧ TextRephraser.original r = text
           ∧ TextRephraser.rephrased r
             = Spec.compose_rules TextRephraser.phrase_rules text
           ∧ TextRephraser.modified r
             = Spec.some_rule_fires TextRephraser.phrase_rules text.
Proof.
  intros _. unfold TextRephraser.batch_rephrase. split; [apply length_map|].
  intros i text Hi. exists (TextRephraser.rephrase text None).
  split; [by rewrite (list_lookup_fmap (λ t, TextRephraser.rephrase t None)), Hi|].
  rewrite rephrase_original, rephrase_rephrased, rephrase_modified.
  cbn [TextRephraser.supplied andb].
  rewrite orb_false_r. split; [done|]. split; [|done].
  destruct (Spec.some_rule_fires _ _) eqn:Hf; [done|].
  symmetry. by apply compose_rules_silent.
Qed.

Lemma batch_rephrase_rules_only_witness :
  forallb Py.isascii ["you idiot"; "stupid, Stupid"; "fine"] = true
  ∧ ∃ r, TextRephraser.batch_rephrase ["you idiot"; "stupid, Stupid"; "fine"] !! 1
         = Some r
         ∧ TextRephraser.rephrased r = "unclear, unclear"
         ∧ TextRephraser.modified r = true.
Proof.
  split; [reflexivity|].
  destruct (proj2 (batch_rephrase_rules_only
                     ["you idiot"; "stupid, Stupid"; "fine"] eq_refl)
              1 "stupid, Stupid" eq_refl) as (r & H1 & _ & H2 & H3).
  exists r. split; [exact H1|].
  split; [rewrite H2 | rewrite H3]; vm_compute; reflexivity.
Defined.

(** X10: when the [keywords] entry of [toxicity_info] is missing or empty,
    [get_suggestion] returns the bare reason prefix and an empty keyword
    list, and its rephrasing of a text of ASCII characters comes from the
    phrase rules alone. *)
Theorem get_suggestion_without_keywords (text : string) (info : TextRephraser.toxicity_info) :
  Py.isascii text = true →
  TextRephraser.info_keywords info = None ∨ TextRephraser.info_keywords info = Some [] →
  TextRephraser.sg_reason (TextRephraser.get_suggestion text info)
  = "Contains potentially harmful language: "
  ∧ TextRephraser.sg_keywords (TextRephraser.get_suggestion text info) = []
  ∧ TextRephraser.sg_original (TextRephraser.get_suggestion text info) = text
  ∧ TextRephraser.sg_rephrased (TextRephraser.get_suggestion text info)
    = Spec.compose_rules TextRephraser.phrase_rules text.
Proof.
  intros _ H. unfold TextRephraser.get_suggestion.
  cbn [TextRephraser.sg_reason TextRephraser.sg_keywords TextRephraser.sg_original
       TextRephraser.sg_rephrased].
  assert (Hk : TextRephraser.get_or_empty (TextRephraser.info_keywords info) = []).
  { by destruct H as [-> | ->]. }
  rewrite Hk. repeat split; try done.
  rewrite rephrase_rephrased. cbn [TextRephraser.supplied].
  destruct (Spec.some_rule_fires _ _) eqn:Hf; [done|].
  symmetry. by apply compose_rules_silent.
Qed.

Lemma get_suggestion_without_keywords_witness :
  Py.isascii "THAT IS SO BAD!!!" = true
  ∧ TextRephraser.sg_rephrased
      (TextRephraser.get_suggestion "THAT IS SO BAD!!!"
         {| TextRephraser.info_keywords := None;
            TextRephraser.info_categories := Some ["insults"] |})
    = "THAT IS SO BAD!!!".
Proof.
  split; [reflexivity|].
  destruct (get_suggestion_without_keywords "THAT IS SO BAD!!!"
              {| TextRephraser.info_keywords := None;
                 TextRephraser.info_categories := Some ["insults"] |})
    as (_ & _ & _ & H); [reflexivity | by left |].
  rewrite H. vm_compute. reflexivity.
Defined.

(** X11: on a text of ASCII characters the combined endpoint gives a
    suggestion exactly when the text is toxic.  The suggestion then carries the text, the keywords and
    categories of the verdict, a keyword list that is not empty, and as
    rephrasing the composition of the phrase rules when one fires and the
    softened text otherwise: for a toxic text the softening fallback is
    always enabled. *)
Theorem analyze_and_rephrase_suggestion
    (list_keywords list_categories : gset string → list string) (text : string) :
  Py.isascii text = true →
  (∀ s x, x ∈ list_keywords s ↔ x ∈ s) →
  (∀ s x, x ∈ list_categories s ↔ x ∈ s) →
  let response := App.analyze_and_rephrase list_keywords list_categories text in
  fst response = ToxicityAnalyzer.analyze text
  ∧ match snd response with
    | None => ToxicityAnalyzer.isToxic (fst response) = false
    | Some sg =>
        ToxicityAnalyzer.isToxic (fst response) = true
        ∧ TextRephraser.sg_original sg = text
        ∧ (∀ x, x ∈ TextRephraser.sg_keywords sg
                ↔ x ∈ ToxicityAnalyzer.keywords (fst response))
        ∧ (∀ x, x ∈ TextRephraser.sg_categories sg
                ↔ x ∈ ToxicityAnalyzer.categories (fst response))
        ∧ TextRephraser.sg_keywords sg ≠ []
        ∧ TextRephraser.sg_rephrased sg
          = (if Spec.some_rule_fires TextRephraser.phrase_rules text
             then Spec.compose_rules TextRephraser.phrase_rules text
             else Spec.soften text)
    end.
Proof.
  intros _ Hk Hc. cbv zeta. unfold App.analyze_and_rephrase. cbn [fst snd].
  split; [done|].
  destruct (ToxicityAnalyzer.isToxic (ToxicityAnalyzer.analyze text)) eqn:Ht; [|done].
  unfold TextRephraser.get_suggestion, App.info_of.
  cbn [TextRephraser.sg_original TextRephraser.sg_keywords TextRephraser.sg_categories
       TextRephraser.sg_rephrased TextRephraser.info_keywords
       TextRephraser.info_categories TextRephraser.get_or_empty].
  assert (Hne : list_keywords (ToxicityAnalyzer.keywords (ToxicityAnalyzer.analyze text)) ≠ []).
  { destruct (Spec.whitespace_only text) eqn:Hb.
    { by rewrite (analyze_blank _ Hb) in Ht. }
    rewrite (analyze_isToxic_spec _ Hb) in Ht. apply andb_true_iff in Ht as [Ht _].
    intros E.
    assert (He : ToxicityAnalyzer.keywords (ToxicityAnalyzer.analyze text) = ∅).
    { apply set_eq. intros x. rewrite <- Hk, E.
      split; [by intros ?%elem_of_nil | by intros ?%elem_of_empty]. }
    apply (analyze_keywords_empty _ Hb) in He. congruence. }
  split; [reflexivity|]. split; [reflexivity|].
  split; [intros x; apply Hk|]. split; [intros x; apply Hc|].
  split; [exact Hne|].
  rewrite rephrase_rephrased.
  destruct (list_keywords _); [by destruct Hne|]. reflexivity.
Qed.

Lemma analyze_and_rephrase_suggestion_witness :
  Py.isascii "You FOOL!!" = true
  ∧ ∃ sg, snd (App.analyze_and_rephrase elements elements "You FOOL!!") = Some sg
          ∧ TextRephraser.sg_original sg = "You FOOL!!"
          ∧ TextRephraser.sg_rephrased sg = "Perhaps you FOOL."
          ∧ TextRephraser.sg_keywords sg ≠ [].
Proof.
  split; [reflexivity|].
  assert (Ht : ToxicityAnalyzer.isToxic (ToxicityAnalyzer.analyze "You FOOL!!") = true)
    by (vm_compute; reflexivity).
  pose proof (analyze_and_rephrase_suggestion elements elements "You FOOL!!" eq_refl
                (λ (s : gset string) x, elem_of_elements s x)
                (λ (s : gset string) x, elem_of_elements s x)) as H.
  cbv zeta in H. destruct H as [_ H].
  unfold App.analyze_and_rephrase in H |- *. cbn [fst snd] in H |- *.
  rewrite Ht in H |- *. cbv beta iota in H.
  destruct H as (_ & Ho & _ & _ & Hne & Hr).
  eexists. split; [reflexivity|]. split; [exact Ho|].
  split; [rewrite Hr; vm_compute; reflexivity | exact Hne].
Defined.

(** ** Exclamation marks after softening *)

Section Exclamations.

Import TextRephraser.

Lemma prefix_double_bang c s :
  String.prefix "!!" (String c s) = Ascii.eqb c "!" && Aux.starts_bang s.
Proof.
  cbn [String.prefix]. destruct (ascii_dec "!" c) as [<-|Hne].
  - destruct s as [|d s]; [done|]. cbn [Aux.starts_bang String.prefix].
    destruct (ascii_dec "!" d) as [<-|Hd]; [by destruct s|].
    rewrite Ascii.eqb_refl. symmetry. apply Ascii.eqb_neq. congruence.
  - rewrite (proj2 (Ascii.eqb_neq c "!")); [done|congruence].
Qed.

Lemma contains_double_bang s : Py.contains "!!" s = Aux.double_bang s.
Proof.
  induction s as [|c s IH]; [done|].
  cbn [Py.contains Aux.double_bang]. by rewrite IH, prefix_double_bang.
Qed.

Lemma double_bang_flush n x s :
  Ascii.eqb x "!" = false →
  Aux.double_bang (Spec.flush n +:+ String x s) = Aux.double_bang s.
Proof.
  intros Hx. destruct n as [|[|n]]; cbn [Spec.flush].
  - change ("" +:+ String x s) with (String x s).
    cbn [Aux.double_bang]. by rewrite Hx.
  - change ("!" +:+ String x s) with (String "!" (String x s)).
    cbn [Aux.double_bang Aux.starts_bang]. by rewrite Hx, andb_false_r.
  - change ("." +:+ String x s) with (String "." (String x s)).
    cbn [Aux.double_bang Aux.starts_bang]. by rewrite Hx.
Qed.

Lemma collapse_no_double_bang n s : Aux.double_bang (Spec.collapse_go n s) = false.
Proof.
  revert n. induction s as [|x s IH]; intros n; cbn [Spec.collapse_go].
  - by destruct n as [|[|n]].
  - destruct (Ascii.eqb x "!") eqn:Hx; [apply IH|].
    by rewrite (double_bang_flush _ _ _ Hx).
Qed.

Lemma collapse_fixed n s :
  n ≤ 1 → Aux.double_bang (Spec.flush n +:+ s) = false →
  Spec.collapse_go n s = Spec.flush n +:+ s.
Proof.
  revert n. induction s as [|x s IH]; intros n Hn H; cbn [Spec.collapse_go].
  - by rewrite append_empty_r.
  - destruct (Ascii.eqb x "!") eqn:Hx.
    + apply Ascii.eqb_eq in Hx as ->. destruct n as [|[|n]]; [|done|lia].
      apply (IH 1); [lia|exact H].
    + rewrite (double_bang_flush _ _ _ Hx) in H.
      by rewrite (IH 0 (Nat.le_0_l _) H).
Qed.

Lemma collapse_exclamations_fixed s :
  Aux.double_bang s = false → Spec.collapse_exclamations s = s.
Proof. intros H. apply (collapse_fixed 0 s); [lia|exact H]. Qed.

Lemma bang_lower_c c : Ascii.eqb (Py.lower_c c) "!" = Ascii.eqb c "!".
Proof. destruct c as [[] [] [] [] [] [] [] []]; reflexivity. Qed.

Lemma bang_upper_c c : Ascii.eqb (Py.upper_c c) "!" = Ascii.eqb c "!".
Proof. destruct c as [[] [] [] [] [] [] [] []]; reflexivity. Qed.

Lemma starts_bang_lower s : Aux.starts_bang (Py.map Py.lower_c s) = Aux.starts_bang s.
Proof. destruct s; [done|]. apply bang_lower_c. Qed.

Lemma double_bang_lower s : Aux.double_bang (Py.map Py.lower_c s) = Aux.double_bang s.
Proof.
  induction s as [|c s IH]; [done|]. cbn [Py.map Aux.double_bang].
  by rewrite IH, bang_lower_c, starts_bang_lower.
Qed.

Lemma double_bang_sentence_case s :
  Aux.double_bang (Spec.sentence_case s) = Aux.double_bang s.
Proof.
  destruct s as [|c s]; [done|]. cbn [Spec.sentence_case Aux.double_bang].
  by rewrite bang_upper_c, starts_bang_lower, double_bang_lower.
Qed.

Lemma double_bang_hedge s : Aux.double_bang (Spec.hedge s) = Aux.double_bang s.
Proof.
  destruct s as [|c s]; [done|]. unfold Spec.hedge.
  change ("Perhaps " +:+ String (Py.lower_c c) s)
    with (String "P" (String "e" (String "r" (String "h" (String "a" (String "p"
           (String "s" (String " " (String (Py.lower_c c) s))))))))).
  cbn [Aux.double_bang Aux.starts_bang Ascii.eqb Bool.eqb andb orb].
  by rewrite bang_lower_c.
Qed.

Lemma soften_no_double_bang text : Aux.double_bang (Spec.soften text) = false.
Proof.
  unfold Spec.soften.
  assert (H2 : Aux.double_bang
                 (if (10 <? String.length (Spec.collapse_exclamations text))
                     && Py.isupper (Spec.collapse_exclamations text)
                  then Spec.sentence_case (Spec.collapse_exclamations text)
                  else Spec.collapse_exclamations text) = false).
  { destruct (_ && _); rewrite ?double_bang_sentence_case; apply collapse_no_double_bang. }
  destruct (Spec.strong_start _); [|done]. by rewrite double_bang_hedge.
Qed.

End Exclamations.

(** X12: the softened text never holds two exclamation marks in a row. *)
Theorem general_softening_no_double_exclamation (text : string) :
  Py.contains "!!" (TextRephraser._general_softening text) = false.
Proof.
  rewrite general_softening_spec, contains_double_bang. apply soften_no_double_bang.
Qed.
(** ** Softening twice *)

Section Idempotence.

Import TextRephraser.

#[local] Abbreviation recase s :=
  (if (10 <? String.length s) && Py.isupper s then Spec.sentence_case s else s%string).

Lemma lower_c_idem c : Py.lower_c (Py.lower_c c) = Py.lower_c c.
Proof. destruct c as [[] [] [] [] [] [] [] []]; reflexivity. Qed.

Lemma upper_c_idem c : Py.upper_c (Py.upper_c c) = Py.upper_c c.
Proof. destruct c as [[] [] [] [] [] [] [] []]; reflexivity. Qed.

Lemma sentence_case_idem s :
  Spec.sentence_case (Spec.sentence_case s) = Spec.sentence_case s.
Proof.
  destruct s as [|c s]; [done|]. cbn [Spec.sentence_case]. rewrite upper_c_idem.
  f_equal. induction s as [|x s IH]; [done|]. cbn [Py.map].
  by rewrite lower_c_idem, IH.
Qed.

Lemma recase_idem s : recase (recase s) = recase s.
Proof.
  destruct ((10 <? String.length s) && Py.isupper s) eqn:E.
  - destruct ((10 <? String.length (Spec.sentence_case s))
              && Py.isupper (Spec.sentence_case s)); [apply sentence_case_idem|done].
  - by rewrite E.
Qed.

Lemma recase_no_double_bang s :
  Aux.double_bang s = false → Aux.double_bang (recase s) = false.
Proof.
  intros H. destruct (_ && _); [|done]. by rewrite double_bang_sentence_case.
Qed.

Lemma hedge_spelled s :
  ∃ s', Spec.hedge s = String "P" (String "e" s').
Proof. destruct s as [|c s]; eexists; reflexivity. Qed.

Lemma hedge_not_upper s : Py.isupper (Spec.hedge s) = false.
Proof.
  destruct (hedge_spelled s) as [s' ->]. unfold Py.isupper. cbn [Py.any].
  change (Py.islower_c "e") with true. by rewrite orb_true_r, andb_false_r.
Qed.

Lemma hedge_not_strong s : Spec.strong_start (Spec.hedge s) = false.
Proof.
  destruct (hedge_spelled s) as [s' ->].
  unfold Spec.strong_start, Spec.begins_with_word. cbn [Py.lower Py.map].
  change (Py.lower_c "P") with "p"%char. reflexivity.
Qed.

Lemma soften_idem text : Spec.soften (Spec.soften text) = Spec.soften text.
Proof.
  unfold Spec.soften at 2 3.
  pose proof (collapse_no_double_bang 0 text) as Hc.
  fold (Spec.collapse_exclamations text) in Hc.
  apply recase_no_double_bang in Hc.
  set (s2 := recase (Spec.collapse_exclamations text)) in *.
  assert (H2 : recase s2 = s2) by apply recase_idem.
  destruct (Spec.strong_start s2) eqn:Hs; unfold Spec.soften.
  - rewrite collapse_exclamations_fixed by (by rewrite double_bang_hedge).
    by rewrite hedge_not_upper, andb_false_r, hedge_not_strong.
  - by rewrite (collapse_exclamations_fixed _ Hc), H2, Hs.
Qed.

End Idempotence.

(** X13: softening is idempotent: softening a softened text changes
    nothing more. *)
Theorem general_softening_idempotent (text : string) :
  TextRephraser._general_softening (TextRephraser._general_softening text)
  = TextRephraser._general_softening text.
Proof. rewrite !general_softening_spec. apply soften_idem. Qed.
(** ** The phrase rules and the keyword table *)

Section RulesAndKeywords.

Import Re.

(** What one token reads is a piece of the text in front of the rest. *)
Lemma step_reads icase a st st' :
  step icase a st = Some st' →
  ∃ x, rest st = String x (rest st') ∧ atom_ok icase (grp st) a x = true.
Proof.
  unfold step. destruct (rest st) as [|x s]; [done|].
  destruct (atom_ok icase (grp st) a x) eqn:E; [|done].
  intros [= <-]. by exists x.
Qed.

Lemma runs_reads icase g a k0 pv s k st' :
  (k, st') ∈ runs icase g a k0 pv s → ∃ pre, s = pre +:+ rest st'.
Proof.
  revert k0 pv. induction s as [|x s IH]; intros k0 pv; cbn [runs].
  - cbn. intros [= _ ->]%list_elem_of_singleton. by exists "".
  - intros [H|H]%elem_of_app.
    + destruct (atom_ok icase g a x); [|by apply elem_of_nil in H].
      apply IH in H as [pre ->]. by exists (String x pre).
    + apply list_elem_of_singleton in H as [= _ ->]. by exists "".
Qed.

Lemma eat_reads icase w st st' :
  eat icase w st = Some st' → ∃ pre, rest st = pre +:+ rest st'.
Proof.
  revert st. induction w as [|c w IH]; intros st; cbn [eat].
  - intros [= <-]. by exists "".
  - destruct (step icase (AChr c) st) as [st1|] eqn:E; [|done].
    intros [pre H]%IH. apply step_reads in E as (x & E & _).
    exists (String x pre). by rewrite E, H.
Qed.

Lemma matches_token icase t p st m :
  m ∈ matches icase (t :: p) st →
  ∃ pre st1, rest st = pre +:+ rest st1 ∧ m ∈ matches icase p st1.
Proof.
  destruct t as [a|a|n a|a|ws| |]; cbn [matches].
  - destruct (step icase a st) as [st1|] eqn:E; [|by intros ?%elem_of_nil].
    apply step_reads in E as (x & E & _). intros H.
    exists (String x ""), st1. by rewrite E.
  - intros [H|H]%elem_of_app.
    + destruct (step icase a st) as [st1|] eqn:E; [|by apply elem_of_nil in H].
      apply step_reads in E as (x & E & _).
      exists (String x ""), st1. by rewrite E.
    + by exists "", st.
  - intros H%list_elem_of_In. apply in_flat_map in H as ([k st1] & H1 & H2).
    apply list_elem_of_In, runs_reads in H1 as [pre H1]. cbn [fst snd] in H2.
    destruct (n <=? k); [|done]. apply list_elem_of_In in H2.
    by exists pre, st1.
  - destruct (step icase a st) as [st1|] eqn:E; [|by intros ?%elem_of_nil].
    apply step_reads in E as (x & E & _). intros H.
    exists (String x ""), {| grp := prev st1; prev := prev st1; rest := rest st1 |}.
    by rewrite E.
  - intros H%list_elem_of_In. apply in_flat_map in H as (w & _ & H2).
    destruct (eat icase w st) as [st1|] eqn:E; [|done].
    apply list_elem_of_In in H2. apply eat_reads in E as [pre E].
    by exists pre, st1.
  - destruct (boundary st); [|by intros ?%elem_of_nil].
    intros H. by exists "", st.
  - destruct (prev st); [by intros ?%elem_of_nil|].
    intros H. by exists "", st.
Qed.

Lemma prefix_contains w s : String.prefix w s = true → Py.contains w s = true.
Proof. intros H. destruct s; cbn [Py.contains]; by rewrite H. Qed.

(** A match of a pattern that starts with a lower-case literal, read
    without regard to case, stands on that literal in the lower-cased
    text. *)
Lemma matches_literal w p p' st m :
  Aux.strip_lit w p = Some p' → Py.lower w = w →
  m ∈ matches true p st → String.prefix w (Py.lower (rest st)) = true.
Proof.
  revert p st. induction w as [|c w IH]; intros p st Hp Hw Hm.
  - by destruct (Py.lower (rest st)).
  - cbn [Aux.strip_lit] in Hp. destruct p as [|[[c'| |]| | | | | |] p]; try done.
    destruct (Ascii.eqb c c') eqn:Ec; [|done]. apply Ascii.eqb_eq in Ec as <-.
    injection Hw as Hc Hw. cbn [matches] in Hm.
    destruct (step true (AChr c) st) as [st1|] eqn:E; [|by apply elem_of_nil in Hm].
    apply step_reads in E as (x & E & Hx). rewrite E.
    cbn [atom_ok eqc] in Hx. apply Ascii.eqb_eq in Hx. rewrite Hc in Hx.
    cbn [Py.lower Py.map String.prefix]. destruct (ascii_dec c (Py.lower_c x)); [|done].
    by apply (IH p st1).
Qed.

Lemma matches_names w p st m :
  Aux.has_lit w p = true → Py.lower w = w →
  m ∈ matches true p st → Py.contains w (Py.lower (rest st)) = true.
Proof.
  intros Hp Hw. revert st. induction p as [|t p IH]; intros st Hm.
  - cbn [Aux.has_lit] in Hp. destruct (Aux.strip_lit w []) as [p'|] eqn:E; [|done].
    apply prefix_contains. by apply (matches_literal _ _ _ _ _ E Hw Hm).
  - cbn [Aux.has_lit] in Hp. destruct (Aux.strip_lit w (t :: p)) as [p'|] eqn:E.
    + apply prefix_contains. by apply (matches_literal _ _ _ _ _ E Hw Hm).
    + apply matches_token in Hm as (pre & st1 & -> & Hm).
      rewrite lower_app. by apply contains_app_r, IH.
Qed.

Lemma search_names w p pv s :
  Aux.has_lit w p = true → Py.lower w = w →
  search_from true p pv s = true → Py.contains w (Py.lower s) = true.
Proof.
  intros Hp Hw. revert pv. induction s as [|x s IH]; intros pv; cbn [search_from];
    unfold match_at;
    destruct (matches true p (start pv _)) as [|m l] eqn:E; cbn [head].
  - done.
  - intros _. apply (matches_names w p (start pv "") m); [done..|]. rewrite E. left.
  - intros H%IH. change (String x s) with (String x "" +:+ s).
    rewrite lower_app. by apply contains_app_r.
  - intros _. apply (matches_names w p (start pv (String x s)) m); [done..|].
    rewrite E. left.
Qed.

Lemma rules_name_keywords :
  forallb Aux.names_strong_keyword TextRephraser.phrase_rules = true
  ∧ forallb (λ w, String.eqb (Py.lower w) w) Aux.strong_keywords = true.
Proof. split; vm_compute; reflexivity. Qed.

(** A text on which a phrase rule fires holds a keyword of a category
    other than [profanity]. *)
Lemma fired_rule_names_keyword r text :
  r ∈ TextRephraser.phrase_rules → Spec.fires r text = true →
  existsb (Spec.category_matches text) Aux.strong_patterns = true.
Proof.
  intros Hr Hf. destruct rules_name_keywords as [H1 H2].
  rewrite forallb_forall in H1, H2.
  specialize (H1 r (proj1 (list_elem_of_In _ _) Hr)).
  unfold Aux.names_strong_keyword in H1.
  apply andb_true_iff in H1 as [Hi H1]. apply existsb_exists in H1 as (w & Hw & Hl).
  specialize (H2 w Hw). apply String.eqb_eq in H2.
  unfold Spec.fires, search in Hf. rewrite Hi in Hf.
  pose proof (search_names _ _ _ _ Hl H2 Hf) as Hc.
  unfold Aux.strong_keywords in Hw. apply in_flat_map in Hw as (d & Hd & Hk).
  apply existsb_exists. exists d. split; [done|].
  unfold Spec.category_matches, Spec.hit. apply existsb_exists. by exists w.
Qed.

Lemma some_rule_fires_first rules text :
  Spec.some_rule_fires rules text = true →
  ∃ r, r ∈ rules ∧ Spec.fires r text = true.
Proof.
  induction rules as [|r rules IH]; [done|].
  unfold Spec.some_rule_fires. cbn [Spec.turns existsb fst snd].
  destruct (Spec.fires r text) eqn:E.
  - intros _. exists r. split; [left|done].
  - rewrite (replace_all_silent _ _ E). cbn [orb].
    intros (r' & H1 & H2)%IH. exists r'. split; [by right|done].
Qed.

Lemma fired_rules_toxic text :
  Spec.some_rule_fires TextRephraser.phrase_rules text = true →
  ToxicityAnalyzer.isToxic (ToxicityAnalyzer.analyze text) = true.
Proof.
  intros Hf. destruct (Spec.whitespace_only text) eqn:Hb.
  { rewrite (blank_rules_silent _ Hb) in Hf. done. }
  rewrite (analyze_isToxic_decided _ Hb).
  apply some_rule_fires_first in Hf as (r & Hr & Hf).
  by rewrite (fired_rule_names_keyword _ _ Hr Hf).
Qed.

End RulesAndKeywords.

(** X14: the phrase rules rewrite toxic text only: whenever a phrase rule
    fires on a text of ASCII characters ([rephrase] without keywords
    reports it as modified), [analyze] judges that text toxic. *)
Theorem rephrase_rewrites_toxic_text_only (text : string) :
  Py.isascii text = true →
  TextRephraser.modified (TextRephraser.rephrase text None) = true →
  ToxicityAnalyzer.isToxic (ToxicityAnalyzer.analyze text) = true.
Proof.
  intros _. rewrite rephrase_modified. cbn [TextRephraser.supplied andb].
  rewrite orb_false_r. apply fired_rules_toxic.
Qed.

Lemma rephrase_rewrites_toxic_text_only_witness :
  Py.isascii "Oh, shut up" = true
  ∧ TextRephraser.modified (TextRephraser.rephrase "Oh, shut up" None) = true
  ∧ ToxicityAnalyzer.isToxic (ToxicityAnalyzer.analyze "Oh, shut up") = true.
Proof.
  split; [reflexivity|]. split; [vm_compute; reflexivity|].
  apply (rephrase_rewrites_toxic_text_only "Oh, shut up");
    [reflexivity | vm_compute; reflexivity].
Defined.
